(** * Regula Falsi (false position): a shallow embedding of [app.py]

    The development follows [regula_falsi] of [app.py] line by line.  Python's
    [float] is IEEE 754 binary64, so the numbers are Rocq's primitive
    binary64 floats: every concrete run below is evaluated with the very
    rounding the interpreter performs.  General statements about the float
    operations go through their specification [Prim2SF] in [SpecFloat].

    What the embedding takes for granted:
    - [a], [b] and [tol] are Python floats, as [st.number_input] delivers
      them, so line 51 divides two Python floats and a zero divisor raises
      [ZeroDivisionError];
    - [max_iter] is an [int] (the caller passes [int(max_iter)]);
    - [f] is a function: the same argument gives the same answer.  It may
      raise, and [float(...)] around it may raise; either way the call of
      [float(f(x))] raises;
    - the assignment [c = a] of line 48 is dead and is left out; the
      conversions [float(a)], ... of line 53 are the identity on floats. *)

From Stdlib Require Import ZArith List String Bool Lia.
From Stdlib Require Import Floats.
From Stdlib Require Import QArith Qminmax Lqa.
Import ListNotations.

Local Open Scope list_scope.
Local Open Scope Z_scope.
Local Open Scope float_scope.

(** ** Exceptions and outcomes *)

(** What can leave [regula_falsi] other than a return value.  The origin of
    an exception is kept, as a Python traceback keeps it: [EvalError e] is
    no class of the source, it stands for the exception [e] that
    [float(f(x))] raised and that the source, having no [try], lets through
    as it is. *)
Inductive exception : Type :=
| ValueError (msg : string)       (* raised by the entry check, line 45 *)
| ZeroDivisionError               (* raised by the float division, line 51 *)
| EvalError (e : string).         (* whatever [float(f(x))] raised *)

(** The user function: [float(f(x))] either yields a float or raises. *)
Definition callable : Type := float -> string + float.

(** One dictionary appended to [rows] at line 53. *)
Record row : Type := mkRow {
  r_iter : Z;
  r_a : float;
  r_b : float;
  r_c : float;
  r_fa : float;
  r_fb : float;
  r_fc : float
}.

(** The data frame built at line 66 is the list of rows, in order. *)
Definition DataFrame : Type := list row.

(** How a call ends.  [Raised e rows] remembers the local list [rows] as it
    stood when the exception left the frame ([[]] when the list was not yet
    bound); the caller never sees it, the list is dropped with the frame. *)
Inductive outcome : Type :=
| Returned (df : DataFrame)
| Raised (e : exception) (rows : list row).

(** ** Library operations used by the source *)

(** [numpy.sign] on a float: [1] above zero, [-1] below, [0] at either zero,
    and the argument itself (a NaN) otherwise.  The source only compares
    two signs with [==] and a product of signs with [< 0]; neither looks at
    the sign bit of a zero. *)
Definition np_sign (x : float) : float :=
  if 0 <? x then 1
  else if x <? 0 then -1
  else if x =? 0 then 0
  else x.

(** Python's [/] on two floats: a zero divisor raises, anything else is the
    IEEE quotient. *)
Definition py_truediv (x y : float) : exception + float :=
  if y =? 0 then inl ZeroDivisionError else inr (x / y).

(** ** The loop body, piece by piece *)

(** Line 51: [c = (a * fb - b * fa) / (fb - fa)]. *)
Definition false_position (a b fa fb : float) : exception + float :=
  py_truediv (a * fb - b * fa) (fb - fa).

(** Line 55: [abs(fc) <= tol]. *)
Definition within_tol (fc tol : float) : bool := abs fc <=? tol.

(** Line 59: [np.sign(fa) * np.sign(fc) < 0]. *)
Definition opposite (fa fc : float) : bool := np_sign fa * np_sign fc <? 0.

(** Line 44: [np.sign(fa) == np.sign(fb)]. *)
Definition same_sign (fa fb : float) : bool := np_sign fa =? np_sign fb.

(** The four loop variables [a], [b], [fa], [fb]. *)
Record bracket : Type := mkBracket {
  br_a : float;
  br_b : float;
  br_fa : float;
  br_fb : float
}.

(** Lines 59-64: which endpoint the new point replaces. *)
Definition update (s : bracket) (c fc : float) : bracket :=
  if opposite (br_fa s) fc
  then mkBracket (br_a s) c (br_fa s) fc
  else mkBracket c (br_b s) fc (br_fb s).

(** Lines 49-64: [n] is the number of values [range] still has to deliver,
    [i] the one it delivers next. *)
Fixpoint loop (f : callable) (tol : float) (n : nat) (i : Z)
              (s : bracket) (rows : list row) : outcome :=
  match n with
  | O => Returned rows
  | S n' =>
      match false_position (br_a s) (br_b s) (br_fa s) (br_fb s) with
      | inl e => Raised e rows
      | inr c =>
          match f c with
          | inl e => Raised (EvalError e) rows
          | inr fc =>
              let rows' :=
                rows ++ [mkRow i (br_a s) (br_b s) c (br_fa s) (br_fb s) fc] in
              if within_tol fc tol then Returned rows'
              else loop f tol n' (i + 1)%Z (update s c fc) rows'
          end
      end
  end.

Definition sign_message : string :=
  "f(a) dan f(b) harus memiliki tanda berlawanan (akar harus berada di interval).".

(** Lines 38-67.  [range(1, max_iter + 1)] delivers [max_iter] values when
    [max_iter] is positive and none otherwise. *)
Definition regula_falsi (f : callable) (a b tol : float) (max_iter : Z)
  : outcome :=
  match f a with
  | inl e => Raised (EvalError e) []
  | inr fa =>
      match f b with
      | inl e => Raised (EvalError e) []
      | inr fb =>
          if same_sign fa fb then Raised (ValueError sign_message) []
          else loop f tol (Z.to_nat max_iter) 1%Z (mkBracket a b fa fb) []
      end
  end.

(** ** The caller: the button handler, lines 72-89 *)

(** [df.iloc[-1]]; an empty frame has no last row. *)
Definition last_row (df : DataFrame) : option row := last (map Some df) None.

(** What the page shows once the button has been pressed with a function
    that parsed. *)
Inductive page : Type :=
| Error_perhitungan (e : exception)       (* line 81: the [except] branch *)
| Ringkasan (root froot : float) (iters : Z) (df : DataFrame)  (* 83-94 *)
| IndexError_uncaught.                    (* line 84 on an empty frame *)

Definition compute_action (f : callable) (a b tol : float) (max_iter : Z)
  : page :=
  match regula_falsi f a b tol max_iter with
  | Raised e _ => Error_perhitungan e
  | Returned df =>
      match last_row df with
      | None => IndexError_uncaught
      | Some r => Ringkasan (r_c r) (r_fc r) (r_iter r) df
      end
  end.

(** Modelled from the spec: the source has no [converged] field; the spec's
    [Result] derives it from the last record as [|fc| <= tol]. *)
Definition converged (tol : float) (df : DataFrame) : option bool :=
  option_map (fun r => within_tol (r_fc r) tol) (last_row df).

(** ** Auxiliary notions used in the statements *)

(** The rows a call has appended, whether it returned them or not. *)
Definition rows_of (o : outcome) : list row :=
  match o with
  | Returned df => df
  | Raised _ rows => rows
  end.

(** The loop variables a row was computed from. *)
Definition bracket_of (r : row) : bracket :=
  mkBracket (r_a r) (r_b r) (r_fa r) (r_fb r).

(** [no_convergence f tol n s]: starting from the loop variables [s], each of
    the next [n] passes through the body computes its [c], evaluates [f]
    there and fails the test of line 55. *)
Fixpoint no_convergence (f : callable) (tol : float) (n : nat) (s : bracket)
  : bool :=
  match n with
  | O => true
  | S n' =>
      match false_position (br_a s) (br_b s) (br_fa s) (br_fb s) with
      | inl _ => false
      | inr c =>
          match f c with
          | inl _ => false
          | inr fc =>
              negb (within_tol fc tol) && no_convergence f tol n' (update s c fc)
          end
      end
  end.

(** [f] answers a NaN with a NaN (or raises), as every arithmetic expression
    does. *)
Definition nan_strict (f : callable) : Prop :=
  forall x y, is_nan x = true -> f x = inr y -> is_nan y = true.

(** The four things [numpy.sign] can answer. *)
Inductive sign_view (x : float) : Prop :=
| sign_pos : (0 <? x) = true -> np_sign x = 1 -> sign_view x
| sign_neg : (x <? 0) = true -> np_sign x = (-1) -> sign_view x
| sign_zero : (x =? 0) = true -> np_sign x = 0 -> sign_view x
| sign_nan : is_nan x = true -> np_sign x = x -> sign_view x.

(** [trace_from f tol s i rows]: [rows] is what successive passes through
    the loop body append when the first pass starts with the loop variables
    [s] and the index [i]; every row but the last fails the test of line 55
    and hands the updated variables to the next pass. *)
Inductive trace_from (f : callable) (tol : float)
  : bracket -> Z -> list row -> Prop :=
| trace_nil s i : trace_from f tol s i []
| trace_cons s i c fc rest :
    false_position (br_a s) (br_b s) (br_fa s) (br_fb s) = inr c ->
    f c = inr fc ->
    (rest <> [] -> within_tol fc tol = false) ->
    trace_from f tol (update s c fc) (i + 1)%Z rest ->
    trace_from f tol s i
      (mkRow i (br_a s) (br_b s) c (br_fa s) (br_fb s) fc :: rest).

(** The loop variables the pass after the rows [rows] starts with: lines
    59-64 applied to the last row, and [s] when no row was appended yet. *)
Definition bracket_after (s : bracket) (rows : list row) : bracket :=
  match last_row rows with
  | Some r => update (bracket_of r) (r_c r) (r_fc r)
  | None => s
  end.

(** The formula of line 51 over the rationals: what [false_position]
    would compute if none of its five operations rounded. *)
Definition false_position_Q (a b fa fb : Q) : Q :=
  ((a * fb - b * fa) / (fb - fa))%Q.

(** The rational a finite binary64 number stands for; an infinity or a NaN
    stands for none. *)
Definition float_value (x : float) : option Q :=
  match Prim2SF x with
  | S754_zero _ => Some 0%Q
  | S754_finite s m e =>
      Some ((if s then - inject_Z (Zpos m) else inject_Z (Zpos m))
            * Qpower 2 e)%Q
  | _ => None
  end.

(** [r], computed from [x] and [y], is finite like them and stands for
    exactly [op] of what they stand for: the operation did not round. *)
Definition exact_result (op : Q -> Q -> Q) (x y r : float) : Prop :=
  match float_value x, float_value y, float_value r with
  | Some qx, Some qy, Some qr => (qr == op qx qy)%Q
  | _, _, _ => False
  end.

(** None of the five operations of line 51 rounds. *)
Definition line_51_exact (a b fa fb : float) : Prop :=
  exact_result Qmult a fb (a * fb) /\
  exact_result Qmult b fa (b * fa) /\
  exact_result Qminus (a * fb) (b * fa) (a * fb - b * fa) /\
  exact_result Qminus fb fa (fb - fa) /\
  exact_result Qdiv (a * fb - b * fa) (fb - fa)
               ((a * fb - b * fa) / (fb - fa)).

(** ** The plot window, lines 102-103 *)

(** Python's [min(a, b)] and [max(a, b)] on two floats: the first argument
    stays unless the second is strictly smaller, strictly larger. *)
Definition py_min (a b : float) : float := if b <? a then b else a.

Definition py_max (a b : float) : float := if a <? b then b else a.

(** [(x_min, x_max)]: the interval widened by half its width on each
    side. *)
Definition plot_window (a b : float) : float * float :=
  (py_min a b - abs (b - a) * 0.5, py_max a b + abs (b - a) * 0.5).

(** ** Sample inputs

    Python callables handed to [regula_falsi] as they are, written with the
    float operations Python performs on them.  None is the output of
    [make_func]: [lambdify] compiles a power such as [x**2] to a call of
    [pow], which is not modelled, so powers are written here as products,
    which Python multiplies with the roundings computed below and without
    ever raising. *)

Set Warnings "-inexact-float".

(** [lambda x: x*x*x - x - 2]. *)
Definition cubic : callable := fun x => inr (x * x * x - x - 2).

(** [lambda x: x*x - 2]. *)
Definition square_minus_two : callable := fun x => inr (x * x - 2).

(** [lambda x: x + 5], the spec's example of a sign failure on [[0, 1]]. *)
Definition plus_five : callable := fun x => inr (x + 5).

(** [lambda x: 10*x - 1]: binary64 evaluates it to exactly [0] at [0.1]. *)
Definition ten_x_minus_one : callable := fun x => inr (10 * x - 1).

(** [lambda x: 1/x] on a Python float: the division raises at zero and
    nowhere else. *)
Definition reciprocal : callable :=
  fun x => if x =? 0 then inl "ZeroDivisionError"%string else inr (1 / x).

(** [lambda x: 3*(np.sign(x - 0.1)*np.sign(x - 0.1))]: zero at [0.1] and
    [3] at every other number. *)
Definition plateau : callable :=
  fun x => inr (3 * (np_sign (x - 0.1) * np_sign (x - 0.1))).

(** [lambda x: np.sqrt(x) - 1]: below zero [numpy] answers a NaN (with a
    warning), it raises nothing. *)
Definition sqrt_minus_one : callable := fun x => inr (sqrt x - 1).

(** [lambda x: 0.0 if x == 1 else float("inf")]. *)
Definition zero_at_one : callable :=
  fun x => if x =? 1 then inr 0 else inr infinity.

(** ** Facts about binary64 and [numpy.sign] *)

Module FloatFacts.

Lemma Prim2SF_zero : Prim2SF 0 = S754_zero false.
Proof. reflexivity. Qed.

Ltac to_spec :=
  unfold is_nan in *;
  rewrite ?FloatAxioms.eqb_spec, ?ltb_spec, ?leb_spec, ?abs_spec,
          ?sub_spec, ?mul_spec, ?Prim2SF_zero in *.

Lemma SFcompare_refl (x : spec_float) :
  x <> S754_nan -> SFcompare x x = Some Eq.
Proof.
  destruct x as [s|s| |s m e]; try destruct s; cbn; try congruence.
  all: intros _; rewrite Z.compare_refl, Pos.compare_cont_refl; reflexivity.
Qed.

Lemma is_nan_spec (x : float) : is_nan x = true <-> Prim2SF x = S754_nan.
Proof.
  to_spec. unfold SFeqb. split.
  - intros H. destruct (Prim2SF x) as [s|s| |s m e] eqn:E; try reflexivity.
    all: rewrite SFcompare_refl in H by discriminate; discriminate.
  - intros ->. reflexivity.
Qed.

Lemma not_nan_spec (x : float) : is_nan x = false <-> Prim2SF x <> S754_nan.
Proof.
  rewrite <- is_nan_spec. destruct (is_nan x); split; congruence.
Qed.

(** *** The three comparisons against zero *)

Lemma eqb_zero_ltb (x : float) :
  (x =? 0) = true -> (0 <? x) = false /\ (x <? 0) = false.
Proof.
  to_spec. destruct (Prim2SF x) as [s|s| |s m e]; try destruct s; cbn;
    intuition congruence.
Qed.

Lemma ltb_zero_asym (x : float) : (x <? 0) = true -> (0 <? x) = false.
Proof.
  to_spec. destruct (Prim2SF x) as [s|s| |s m e]; try destruct s; cbn;
    congruence.
Qed.

Lemma trichotomy_zero (x : float) :
  is_nan x = false ->
  (0 <? x) = true \/ (x <? 0) = true \/ (x =? 0) = true.
Proof.
  rewrite not_nan_spec. to_spec.
  destruct (Prim2SF x) as [s|s| |s m e]; try destruct s; cbn; intuition.
Qed.

Lemma nan_compare_zero (x : float) :
  is_nan x = true ->
  (0 <? x) = false /\ (x <? 0) = false /\ (x =? 0) = false.
Proof.
  rewrite is_nan_spec. to_spec. intros ->. repeat split.
Qed.

(** *** [numpy.sign] by cases *)

Lemma np_sign_view (x : float) : sign_view x.
Proof.
  destruct (is_nan x) eqn:N.
  - apply sign_nan; [exact N|].
    destruct (nan_compare_zero x N) as (A & B & C).
    unfold np_sign. rewrite A, B, C. reflexivity.
  - destruct (trichotomy_zero x N) as [H|[H|H]].
    + apply sign_pos; [exact H|]. unfold np_sign. rewrite H. reflexivity.
    + apply sign_neg; [exact H|]. unfold np_sign.
      rewrite (ltb_zero_asym x H), H. reflexivity.
    + apply sign_zero; [exact H|]. unfold np_sign.
      destruct (eqb_zero_ltb x H) as [A B]. rewrite A, B, H. reflexivity.
Qed.

(** A NaN factor makes the product a NaN, which is not below zero; a NaN is
    equal to nothing. *)
Lemma nan_mul_ltb_l (x y : float) : is_nan x = true -> (x * y <? 0) = false.
Proof.
  rewrite is_nan_spec. to_spec. intros ->. reflexivity.
Qed.

Lemma nan_mul_ltb_r (x y : float) : is_nan y = true -> (x * y <? 0) = false.
Proof.
  rewrite is_nan_spec. to_spec. intros ->.
  destruct (Prim2SF x); reflexivity.
Qed.

Lemma nan_eqb_l (x y : float) : is_nan x = true -> (x =? y) = false.
Proof.
  rewrite is_nan_spec. to_spec. intros ->. reflexivity.
Qed.

Lemma nan_eqb_r (x y : float) : is_nan y = true -> (x =? y) = false.
Proof.
  rewrite is_nan_spec. to_spec. intros ->.
  unfold SFeqb. destruct (Prim2SF x); reflexivity.
Qed.

(** *** Consequences for the two sign tests of the source *)

Lemma np_sign_of_zero (x : float) : (x =? 0) = true -> np_sign x = 0.
Proof.
  intros H. destruct (eqb_zero_ltb x H) as [A B].
  unfold np_sign. rewrite A, B, H. reflexivity.
Qed.

Ltac sign_cases x :=
  let E := fresh "E" in
  let H := fresh "H" in
  destruct (np_sign_view x) as [H E|H E|H E|H E]; rewrite ?E in *.

(** Line 59 true means strictly opposite signs, so line 44 would be false. *)
Lemma opposite_not_same_sign (fa fc : float) :
  opposite fa fc = true -> same_sign fa fc = false.
Proof.
  unfold opposite, same_sign. intros O.
  sign_cases fa; sign_cases fc;
    try (rewrite nan_mul_ltb_l in O by assumption; discriminate);
    try (rewrite nan_mul_ltb_r in O by assumption; discriminate);
    try (vm_compute in O; discriminate); reflexivity.
Qed.

(** The tie-break: a zero [fc] never satisfies line 59. *)
Lemma opposite_zero_r (fa fc : float) :
  (fc =? 0) = true -> opposite fa fc = false.
Proof.
  intros Z. unfold opposite. rewrite (np_sign_of_zero fc Z).
  sign_cases fa; try reflexivity.
  apply nan_mul_ltb_l. assumption.
Qed.

(** The [else] branch keeps the signs apart when the value it discards was
    not a zero and the new value is not one either; a NaN on the left must
    have been answered by a NaN. *)
Lemma else_branch_keeps_bracket (fa fb fc : float) :
  same_sign fa fb = false -> (fa =? 0) = false -> (fc =? 0) = false ->
  (is_nan fa = true -> is_nan fc = true) ->
  opposite fa fc = false ->
  same_sign fc fb = false.
Proof.
  unfold same_sign, opposite. intros S F Z N O.
  sign_cases fa; sign_cases fc; try congruence;
    try (vm_compute in O; discriminate);
    try (apply nan_eqb_l; assumption).
  all: exfalso; specialize (N H).
  - destruct (nan_compare_zero fc N) as (A & _). congruence.
  - destruct (nan_compare_zero fc N) as (_ & A & _). congruence.
Qed.

Lemma SF64mul_nan_r (x : spec_float) : SF64mul x S754_nan = S754_nan.
Proof. destruct x; reflexivity. Qed.

Lemma SF64sub_nan_r (x : spec_float) : SF64sub x S754_nan = S754_nan.
Proof. destruct x; reflexivity. Qed.

Lemma SF64div_nan_l (y : spec_float) : SF64div S754_nan y = S754_nan.
Proof. reflexivity. Qed.

(** A NaN among the values makes the point of line 51 a NaN: the
    denominator is a NaN too, not a zero, and the division goes through. *)
Lemma nan_false_position (a b fa fb c : float) :
  is_nan fa = true -> false_position a b fa fb = inr c -> is_nan c = true.
Proof.
  unfold false_position, py_truediv. intros N.
  destruct (fb - fa =? 0); [discriminate|]. intros [= <-].
  apply is_nan_spec. apply is_nan_spec in N.
  rewrite div_spec, !sub_spec, !mul_spec, N.
  rewrite SF64mul_nan_r, SF64sub_nan_r. apply SF64div_nan_l.
Qed.

(** A zero value passes the test of line 55 under any tolerance [>= 0]. *)
Lemma zero_within_tol (fc tol : float) :
  (fc =? 0) = true -> (0 <=? tol) = true -> within_tol fc tol = true.
Proof.
  unfold within_tol. to_spec.
  destruct (Prim2SF fc) as [s|s| |s m e]; try destruct s; cbn;
    congruence.
Qed.

(** *** Order *)

Lemma SFcompare_antisym (x y : spec_float) :
  SFcompare y x = option_map CompOpp (SFcompare x y).
Proof.
  destruct x as [s|s| |s m e], y as [s'|s'| |s' m' e'];
    try destruct s; try destruct s'; cbn; try reflexivity.
  all: rewrite (Z.compare_antisym e e');
    destruct (e ?= e')%Z; cbn; try reflexivity.
  all: rewrite (Pos.compare_cont_antisym m m' Eq); reflexivity.
Qed.

Lemma leb_false_ltb (x y : float) :
  (x <=? y) = false -> is_nan x = false -> is_nan y = false ->
  (y <? x) = true.
Proof.
  rewrite !not_nan_spec. to_spec. unfold SFleb, SFltb.
  rewrite (SFcompare_antisym (Prim2SF x) (Prim2SF y)).
  destruct (Prim2SF x) as [s|s| |s m e], (Prim2SF y) as [s'|s'| |s' m' e'];
    try congruence.
  all: destruct (SFcompare _ _) as [[]|] eqn:C; cbn; try congruence.
  all: cbn in C; try destruct s; try destruct s'; discriminate.
Qed.

Lemma abs_not_nan (x : float) : is_nan x = false -> is_nan (abs x) = false.
Proof.
  rewrite !not_nan_spec, abs_spec. destruct (Prim2SF x); cbn; congruence.
Qed.

(** *** The denominator [fb - fa] *)

Lemma Prim2SF_infinity : Prim2SF infinity = S754_infinity false.
Proof. reflexivity. Qed.

Lemma SFeqb_finite_inv s m e s' m' e' :
  SFeqb (S754_finite s m e) (S754_finite s' m' e') = true ->
  s = s' /\ m = m' /\ e = e'.
Proof.
  unfold SFeqb. cbn.
  destruct s, s'; try discriminate;
    destruct (e ?= e')%Z eqn:Ce; try discriminate;
    destruct (Pos.compare_cont Eq m m') eqn:Cm; try discriminate.
  all: intros _; apply Z.compare_eq in Ce; apply Pos.compare_eq in Cm;
    auto.
Qed.

(** Equal values that are not infinite have a zero difference. *)
Lemma eqb_sub_zero (x y : float) :
  (x =? y) = true -> is_infinity x = false -> (x - y =? 0) = true.
Proof.
  unfold is_infinity. to_spec. rewrite Prim2SF_infinity. unfold SF64sub.
  destruct (Prim2SF x) as [s|s| |s m e], (Prim2SF y) as [s'|s'| |s' m' e'];
    try (try destruct s; try destruct s'; cbn; congruence).
  intros H _. apply SFeqb_finite_inv in H. destruct H as (-> & -> & ->).
  unfold SFsub. cbv zeta. rewrite Z.sub_diag. reflexivity.
Qed.

(** A zero against a non-zero value: the entry check passes and the first
    denominator does not vanish. *)
Lemma zero_vs_nonzero_l (fa fb : float) :
  (fa =? 0) = true -> (fb =? 0) = false ->
  same_sign fa fb = false /\ (fb - fa =? 0) = false.
Proof.
  intros Z NZ. split.
  - unfold same_sign. rewrite (np_sign_of_zero fa Z).
    sign_cases fb; try reflexivity; try congruence.
    apply nan_eqb_r. assumption.
  - revert Z NZ. to_spec. unfold SF64sub.
    destruct (Prim2SF fa) as [s|s| |s m e], (Prim2SF fb) as [s'|s'| |s' m' e'];
      try destruct s; try destruct s'; cbn; congruence.
Qed.

Lemma zero_vs_nonzero_r (fa fb : float) :
  (fb =? 0) = true -> (fa =? 0) = false ->
  same_sign fa fb = false /\ (fb - fa =? 0) = false.
Proof.
  intros Z NZ. split.
  - unfold same_sign. rewrite (np_sign_of_zero fb Z).
    sign_cases fa; try reflexivity; congruence.
  - revert Z NZ. to_spec. unfold SF64sub.
    destruct (Prim2SF fa) as [s|s| |s m e], (Prim2SF fb) as [s'|s'| |s' m' e'];
      try destruct s; try destruct s'; cbn; congruence.
Qed.

End FloatFacts.

(** ** The loop and the rows it appends *)

Lemma last_row_snoc (l : list row) (r : row) : last_row (l ++ [r]) = Some r.
Proof.
  unfold last_row. rewrite map_app. apply last_last.
Qed.

Lemma last_row_cons (r : row) (l : list row) :
  l <> [] -> last_row (r :: l) = last_row l.
Proof.
  destruct l; [congruence | reflexivity].
Qed.

Lemma last_row_some (l : list row) (r : row) :
  last_row l = Some r -> exists l', l = l' ++ [r].
Proof.
  intros H. destruct l as [|x l0]; [discriminate|].
  destruct (exists_last (l:=x :: l0)) as (l' & y & E); [discriminate|].
  rewrite E in H |- *. rewrite last_row_snoc in H. injection H as ->. eauto.
Qed.

Ltac invert_trace T :=
  let Hc := fresh "Hc" in
  let Hfc := fresh "Hfc" in
  let Hin := fresh "Hin" in
  let Hrest := fresh "Hrest" in
  inversion T as [|? ? ? ? ? Hc Hfc Hin Hrest]; subst.

Section Loop.

Variable f : callable.
Variable tol : float.

(** How one call of [loop] ends, read off its arguments. *)
Lemma loop_unfold (n : nat) (i : Z) (s : bracket) (rows : list row) :
  loop f tol (S n) i s rows =
  match false_position (br_a s) (br_b s) (br_fa s) (br_fb s) with
  | inl e => Raised e rows
  | inr c =>
      match f c with
      | inl e => Raised (EvalError e) rows
      | inr fc =>
          if within_tol fc tol
          then Returned
                 (rows ++ [mkRow i (br_a s) (br_b s) c (br_fa s) (br_fb s) fc])
          else loop f tol n (i + 1)%Z (update s c fc)
                 (rows ++ [mkRow i (br_a s) (br_b s) c (br_fa s) (br_fb s) fc])
      end
  end.
Proof. reflexivity. Qed.

(** The rows of a call extend the rows it was given by a trace, at most one
    row per pass; a return either used up all passes or ended on a row that
    passes the test, and a raise happened before the passes were used up. *)
Lemma loop_trace (n : nat) :
  forall (i : Z) (s : bracket) (rows : list row),
  exists new,
    rows_of (loop f tol n i s rows) = rows ++ new /\
    trace_from f tol s i new /\
    (List.length new <= n)%nat /\
    match loop f tol n i s rows with
    | Returned _ =>
        List.length new = n \/
        exists r, last_row new = Some r /\ within_tol (r_fc r) tol = true
    | Raised _ _ => (List.length new < n)%nat
    end.
Proof.
  induction n as [|n IH]; intros i s rows.
  - exists []. cbn. rewrite app_nil_r. repeat split; auto. constructor.
  - rewrite loop_unfold.
    destruct (false_position _ _ _ _) as [e|c] eqn:Hc.
    { exists []. cbn. rewrite app_nil_r. repeat split; auto; try lia.
      constructor. }
    destruct (f c) as [e|fc] eqn:Hfc.
    { exists []. cbn. rewrite app_nil_r. repeat split; auto; try lia.
      constructor. }
    set (r := mkRow i (br_a s) (br_b s) c (br_fa s) (br_fb s) fc).
    destruct (within_tol fc tol) eqn:Ht.
    + exists [r]. cbn. repeat split; auto; try lia.
      * apply trace_cons; auto; [congruence | constructor].
      * right. exists r. split; [reflexivity | exact Ht].
    + destruct (IH (i + 1)%Z (update s c fc) (rows ++ [r]))
        as (new & Hrows & Htr & Hlen & Hend).
      exists (r :: new). rewrite Hrows, <- app_assoc.
      split; [reflexivity|]. split; [apply trace_cons; auto|].
      split; [cbn; lia|].
      destruct (loop f tol n (i + 1)%Z (update s c fc) (rows ++ [r])).
      * destruct Hend as [Hend|(r' & Hl & Hr')]; [left; cbn; lia|].
        right. exists r'. split; [|exact Hr'].
        rewrite last_row_cons; [exact Hl|]. intros ->. discriminate.
      * cbn. lia.
Qed.

(** *** What a trace says about its rows *)

Lemma bracket_of_row (i : Z) (s : bracket) (c fc : float) :
  bracket_of (mkRow i (br_a s) (br_b s) c (br_fa s) (br_fb s) fc) = s.
Proof. destruct s; reflexivity. Qed.

Lemma trace_iter (rows : list row) :
  forall s i, trace_from f tol s i rows ->
  forall k r, nth_error rows k = Some r -> r_iter r = (i + Z.of_nat k)%Z.
Proof.
  induction rows as [|r0 rows IH]; intros s i T k r Hk.
  - destruct k; discriminate.
  - invert_trace T. destruct k as [|k]; cbn in Hk.
    + injection Hk as <-. cbn. lia.
    + rewrite (IH _ _ Hrest k r Hk). lia.
Qed.

Lemma trace_inner_fails (rows : list row) :
  forall s i, trace_from f tol s i rows ->
  forall k r, nth_error rows k = Some r -> (S k < List.length rows)%nat ->
  within_tol (r_fc r) tol = false.
Proof.
  induction rows as [|r0 rows IH]; intros s i T k r Hk Hlt.
  - destruct k; discriminate.
  - invert_trace T. destruct k as [|k]; cbn in Hk, Hlt.
    + injection Hk as <-. apply Hin. destruct rows; cbn in Hlt;
        [lia | discriminate].
    + apply (IH _ _ Hrest k r Hk). lia.
Qed.

Lemma trace_step (rows : list row) :
  forall s i, trace_from f tol s i rows ->
  forall k r, nth_error rows k = Some r ->
  false_position (r_a r) (r_b r) (r_fa r) (r_fb r) = inr (r_c r) /\
  f (r_c r) = inr (r_fc r) /\
  forall r', nth_error rows (S k) = Some r' ->
             bracket_of r' = update (bracket_of r) (r_c r) (r_fc r).
Proof.
  induction rows as [|r0 rows IH]; intros s i T k r Hk.
  - destruct k; discriminate.
  - invert_trace T. destruct k as [|k]; cbn in Hk.
    + injection Hk as <-. split; [exact Hc|]. split; [exact Hfc|].
      intros r' Hr'. invert_trace Hrest; [discriminate|].
      injection Hr' as <-. rewrite !bracket_of_row. reflexivity.
    + apply (IH _ _ Hrest k r Hk).
Qed.

Lemma trace_head (rows : list row) (s : bracket) (i : Z) (r : row) :
  trace_from f tol s i rows -> nth_error rows 0 = Some r ->
  bracket_of r = s.
Proof.
  intros T H. invert_trace T; [discriminate|].
  injection H as <-. apply bracket_of_row.
Qed.

End Loop.

(** ** Whole calls *)

(** A call that gets past line 45 is the loop started on the entry values. *)
Lemma regula_falsi_enters (f : callable) (a b tol : float) (max_iter : Z)
      (fa fb : float) :
  f a = inr fa -> f b = inr fb -> same_sign fa fb = false ->
  regula_falsi f a b tol max_iter =
  loop f tol (Z.to_nat max_iter) 1%Z (mkBracket a b fa fb) [].
Proof.
  intros Ha Hb Hs. unfold regula_falsi. rewrite Ha, Hb, Hs. reflexivity.
Qed.

(** A call that appended a row, or returned, got past line 45. *)
Lemma regula_falsi_entered (f : callable) (a b tol : float) (max_iter : Z) :
  (exists df, regula_falsi f a b tol max_iter = Returned df) \/
  rows_of (regula_falsi f a b tol max_iter) <> [] ->
  exists fa fb, f a = inr fa /\ f b = inr fb /\ same_sign fa fb = false.
Proof.
  unfold regula_falsi.
  destruct (f a) as [e|fa]; [intros [[df H]|H]; [discriminate | now elim H]|].
  destruct (f b) as [e|fb]; [intros [[df H]|H]; [discriminate | now elim H]|].
  destruct (same_sign fa fb) eqn:Hs;
    [intros [[df H]|H]; [discriminate | now elim H]|].
  intros _. exists fa, fb. repeat split. exact Hs.
Qed.

Lemma regula_falsi_trace (f : callable) (a b tol : float) (max_iter : Z)
      (fa fb : float) :
  f a = inr fa -> f b = inr fb -> same_sign fa fb = false ->
  trace_from f tol (mkBracket a b fa fb) 1%Z
    (rows_of (regula_falsi f a b tol max_iter)) /\
  (List.length (rows_of (regula_falsi f a b tol max_iter))
     <= Z.to_nat max_iter)%nat /\
  match regula_falsi f a b tol max_iter with
  | Returned df =>
      List.length df = Z.to_nat max_iter \/
      exists r, last_row df = Some r /\ within_tol (r_fc r) tol = true
  | Raised _ rows => (List.length rows < Z.to_nat max_iter)%nat
  end.
Proof.
  intros Ha Hb Hs. rewrite (regula_falsi_enters f a b tol max_iter fa fb Ha Hb Hs).
  destruct (loop_trace f tol (Z.to_nat max_iter) 1%Z (mkBracket a b fa fb) [])
    as (new & Hrows & Htr & Hlen & Hend).
  cbn [app] in Hrows. rewrite Hrows.
  destruct (loop f tol (Z.to_nat max_iter) 1%Z (mkBracket a b fa fb) []);
    cbn [rows_of] in Hrows; subst; auto.
Qed.

(** The invariant that does hold along a trace: the two values differ in
    sign and the left one is not a zero. *)
Lemma trace_invariant (f : callable) (tol : float) (rows : list row) :
  (0 <=? tol) = true -> nan_strict f ->
  forall s i, trace_from f tol s i rows ->
  same_sign (br_fa s) (br_fb s) = false -> (br_fa s =? 0) = false ->
  Forall (fun r => same_sign (r_fa r) (r_fb r) = false) rows.
Proof.
  intros Htol Hf. induction rows as [|r0 rows IH]; intros s i T Hs Hnz.
  - constructor.
  - invert_trace T. constructor; [exact Hs|].
    destruct rows as [|r1 rows']; [constructor|].
    assert (Ht : within_tol fc tol = false) by (apply Hin; discriminate).
    assert (Hz : (fc =? 0) = false).
    { destruct (fc =? 0) eqn:Z; [|reflexivity].
      rewrite (FloatFacts.zero_within_tol fc tol Z Htol) in Ht. discriminate. }
    assert (Hnan : is_nan (br_fa s) = true -> is_nan fc = true).
    { intros N. apply (Hf c fc); [|exact Hfc].
      exact (FloatFacts.nan_false_position _ _ _ _ _ N Hc). }
    apply (IH _ _ Hrest); unfold update;
      destruct (opposite (br_fa s) fc) eqn:O; cbn.
    + apply FloatFacts.opposite_not_same_sign. exact O.
    + apply (FloatFacts.else_branch_keeps_bracket _ _ _ Hs Hnz Hz Hnan O).
    + exact Hnz.
    + exact Hz.
Qed.

(** Between two consecutive rows of a call the variables change as lines
    59-64 say, and the first row is computed from the entry values. *)
Corollary consecutive_rows (f : callable) (a b tol : float) (max_iter : Z)
          (fa fb : float) (k : nat) (r r' : row) :
  f a = inr fa -> f b = inr fb -> same_sign fa fb = false ->
  nth_error (rows_of (regula_falsi f a b tol max_iter)) k = Some r ->
  nth_error (rows_of (regula_falsi f a b tol max_iter)) (S k) = Some r' ->
  bracket_of r' = update (bracket_of r) (r_c r) (r_fc r) /\
  (k = 0%nat -> bracket_of r = mkBracket a b fa fb).
Proof.
  intros Ha Hb Hs Hk Hk'.
  destruct (regula_falsi_trace f a b tol max_iter fa fb Ha Hb Hs) as (T & _).
  split.
  - destruct (trace_step f tol _ _ _ T k r Hk) as (_ & _ & U). apply U, Hk'.
  - intros ->. apply (trace_head f tol _ _ _ r T Hk).
Qed.

(** ** Two runs that converge

    The functions of the spec's convergence tests, with the powers written
    as products. *)

Example cubic_converges :
  exists df r,
    regula_falsi cubic 1 2 1e-6 50 = Returned df /\
    List.length df = 13%nat /\
    last_row df = Some r /\
    within_tol (r_fc r) 1e-6 = true /\
    (abs (r_c r - 1.5213797068) <=? 1e-6) = true.
Proof.
  do 2 eexists. split; [vm_compute; reflexivity|].
  repeat split.
Qed.

Example square_minus_two_converges :
  exists df r,
    regula_falsi square_minus_two 0 2 1e-6 50 = Returned df /\
    List.length df = 10%nat /\
    last_row df = Some r /\
    within_tol (r_fc r) 1e-6 = true /\
    (abs (r_c r - 1.4142135624) <=? 1e-6) = true.
Proof.
  do 2 eexists. split; [vm_compute; reflexivity|].
  repeat split.
Qed.

(** * The claims *)

(** ** C1: the bracket sign invariant *)

(** C1, as stated, fails.  With [f(x) = 10*x - 1] on [[0.1, 0.7]] and the
    tolerance [1e-17], [f(a)] is exactly [0] and [f(b)] is [6], so the entry
    check passes; rounding puts the first [c] one step above [0.1], where
    [f] is positive, the [else] branch replaces [a], and the second row is
    computed from two positive values. *)
Lemma bracket_invariant_counterexample :
  let o := regula_falsi ten_x_minus_one 0.1 0.7 1e-17 3 in
  ten_x_minus_one 0.1 = inr 0 /\
  ten_x_minus_one 0.7 = inr 6 /\
  same_sign 0 6 = false /\
  (0 <? 1e-17) = true /\
  (exists df, o = Returned df) /\
  map (fun r => (r_iter r, 0 <? r_fa r, 0 <? r_fb r,
                 same_sign (r_fa r) (r_fb r))) (rows_of o) =
  [(1%Z, false, true, false); (2%Z, true, true, true);
   (3%Z, true, false, false)].
Proof.
  vm_compute. repeat split. eexists. reflexivity.
Qed.

(** The tolerance matters too: with a negative one a zero [fc] does not
    stop the loop, the [else] branch makes it the left value, and the next
    pass is in the situation of the counterexample. *)
Example negative_tolerance_breaks_invariant :
  ten_x_minus_one 0 = inr (-1) /\
  ten_x_minus_one 0.4 = inr 3 /\
  map (fun r => (0 <? r_fa r, 0 <? r_fb r, same_sign (r_fa r) (r_fb r)))
      (rows_of (regula_falsi ten_x_minus_one 0 0.4 (-1) 3))
  = [(false, true, false); (false, true, false); (true, true, true)].
Proof. vm_compute. repeat split. Qed.

(** C1, amended: in every call with a tolerance [>= 0] of a function that
    answers NaN with NaN, whose entry values differ in sign with [f(a)] not
    zero, every row appended (returned or not) was computed from values
    [fa], [fb] with [sign(fa) <> sign(fb)]. *)
Theorem bracket_invariant (f : callable) (a b tol : float) (max_iter : Z)
        (fa fb : float) :
  f a = inr fa -> f b = inr fb ->
  same_sign fa fb = false ->
  (fa =? 0) = false ->
  (0 <=? tol) = true ->
  nan_strict f ->
  Forall (fun r => same_sign (r_fa r) (r_fb r) = false)
         (rows_of (regula_falsi f a b tol max_iter)).
Proof.
  intros Ha Hb Hs Hnz Htol Hf.
  destruct (regula_falsi_trace f a b tol max_iter fa fb Ha Hb Hs) as (T & _).
  exact (trace_invariant f tol _ Htol Hf _ _ T Hs Hnz).
Qed.

Lemma square_minus_two_nan_strict : nan_strict square_minus_two.
Proof.
  intros x y N [= <-]. apply FloatFacts.is_nan_spec.
  apply FloatFacts.is_nan_spec in N. rewrite sub_spec, mul_spec, N.
  reflexivity.
Qed.

Lemma bracket_invariant_witness :
  (-2 =? 0) = false /\ (0 <=? 1e-6) = true /\
  List.length (rows_of (regula_falsi square_minus_two 0 2 1e-6 50)) = 10%nat /\
  Forall (fun r => same_sign (r_fa r) (r_fb r) = false)
         (rows_of (regula_falsi square_minus_two 0 2 1e-6 50)).
Proof.
  split; [reflexivity|]. split; [reflexivity|]. split; [reflexivity|].
  apply (bracket_invariant square_minus_two 0 2 1e-6 50 (-2) 2);
    try reflexivity.
  exact square_minus_two_nan_strict.
Defined.

(** ** C2: a vanishing denominator *)

(** C2, as stated, fails for infinite values.  The callable below is [0] at
    [1] and [inf] elsewhere; on [[1, 2]] the entry check passes, the first
    [c] is [inf/inf], a NaN, and the [else] branch makes [fa] infinite as
    [fb] is.  The second and the third pass start with [fb == fa], yet
    [inf - inf] is a NaN, not a zero: the division goes through, rows are
    appended and the call returns. *)
Lemma degenerate_bracket_counterexample :
  let o := regula_falsi zero_at_one 1 2 1e-6 3 in
  zero_at_one 1 = inr 0 /\
  zero_at_one 2 = inr infinity /\
  (exists df, o = Returned df) /\
  map (fun r => (r_iter r, r_fb r =? r_fa r, r_fb r - r_fa r =? 0))
      (rows_of o)
  = [(1%Z, false, false); (2%Z, true, false); (3%Z, true, false)].
Proof.
  vm_compute. repeat split. eexists. reflexivity.
Qed.

(** C2, amended: in any pass through the loop body, whatever the index,
    the rows so far and the passes left, a denominator [fb - fa] equal to
    zero makes the float division of line 51 raise: the call ends with
    Python's [ZeroDivisionError], no [c] is computed and no row is
    appended.  Equal values [fb == fa] that are not infinite have such a
    denominator. *)
Theorem degenerate_bracket_raises (f : callable) (tol : float) (n : nat)
        (i : Z) (s : bracket) (rows : list row) :
  (br_fb s - br_fa s =? 0) = true \/
  ((br_fb s =? br_fa s) = true /\ is_infinity (br_fb s) = false) ->
  false_position (br_a s) (br_b s) (br_fa s) (br_fb s)
    = inl ZeroDivisionError /\
  loop f tol (S n) i s rows = Raised ZeroDivisionError rows.
Proof.
  intros H.
  assert (D : (br_fb s - br_fa s =? 0) = true).
  { destruct H as [H|[E I]]; [exact H|].
    apply FloatFacts.eqb_sub_zero; assumption. }
  assert (F : false_position (br_a s) (br_b s) (br_fa s) (br_fb s)
              = inl ZeroDivisionError).
  { unfold false_position, py_truediv. rewrite D. reflexivity. }
  split; [exact F|]. rewrite loop_unfold, F. reflexivity.
Qed.

Lemma degenerate_bracket_raises_witness :
  (3 - 3 =? 0) = true /\
  loop plateau 1e-6 49 2%Z (mkBracket (0.1 * 3 / 3) 0.7 3 3)
       [mkRow 1 0.1 0.7 (0.1 * 3 / 3) 0 3 3]
  = Raised ZeroDivisionError [mkRow 1 0.1 0.7 (0.1 * 3 / 3) 0 3 3].
Proof.
  split; [reflexivity|].
  apply (degenerate_bracket_raises plateau 1e-6 48 2%Z
           (mkBracket (0.1 * 3 / 3) 0.7 3 3)).
  left. reflexivity.
Defined.

(** The state of the witness is reached by a call with the default
    tolerance: [f(0.1)] is [0], the first [c] is [0.1*3/3], one step above
    [0.1], where [f] is [3] as at [b]; the [else] branch replaces [a], and
    the second pass divides by [3 - 3]. *)
Example degenerate_bracket_run :
  (0.1 <? 0.1 * 3 / 3) = true /\
  regula_falsi plateau 0.1 0.7 1e-6 50
  = Raised ZeroDivisionError [mkRow 1 0.1 0.7 (0.1 * 3 / 3) 0 3 3].
Proof. vm_compute. split; reflexivity. Qed.

(** Equal infinite values are not a vanishing denominator: [inf - inf] is a
    NaN, the division goes through and rows keep being appended. *)
Example equal_infinities_divide :
  false_position 1 2 infinity infinity = inr nan /\
  map (fun r => (r_fa r =? r_fb r, is_nan (r_c r)))
      (rows_of (regula_falsi zero_at_one 1 2 1e-6 3))
  = [(false, true); (true, true); (true, true)].
Proof. vm_compute. split; reflexivity. Qed.

(** ** C3: the update rule and its tie-break *)

(** C3: a pass that neither raises nor stops at line 55 appends its row and
    goes on with the updated variables: when [sign(fa)*sign(fc) < 0] the
    pair [(b, fb)] becomes [(c, fc)] and [(a, fa)] stays, otherwise [(a, fa)]
    becomes [(c, fc)] and [(b, fb)] stays; a zero [fc] takes the second
    branch. *)
Theorem bracket_update_rule (f : callable) (tol : float) (n : nat) (i : Z)
        (s : bracket) (rows : list row) (c fc : float) :
  false_position (br_a s) (br_b s) (br_fa s) (br_fb s) = inr c ->
  f c = inr fc ->
  within_tol fc tol = false ->
  loop f tol (S n) i s rows =
    loop f tol n (i + 1)%Z (update s c fc)
      (rows ++ [mkRow i (br_a s) (br_b s) c (br_fa s) (br_fb s) fc]) /\
  ((np_sign (br_fa s) * np_sign fc <? 0) = true ->
     update s c fc = mkBracket (br_a s) c (br_fa s) fc) /\
  ((np_sign (br_fa s) * np_sign fc <? 0) = false ->
     update s c fc = mkBracket c (br_b s) fc (br_fb s)) /\
  ((fc =? 0) = true ->
     update s c fc = mkBracket c (br_b s) fc (br_fb s)).
Proof.
  intros Hc Hfc Ht. split.
  - rewrite loop_unfold, Hc, Hfc, Ht. reflexivity.
  - unfold update. fold (opposite (br_fa s) fc). repeat split.
    + intros ->. reflexivity.
    + intros ->. reflexivity.
    + intros Z. rewrite (FloatFacts.opposite_zero_r _ _ Z). reflexivity.
Qed.

Lemma bracket_update_rule_witness :
  loop square_minus_two 1e-6 50 1%Z (mkBracket 0 2 (-2) 2) [] =
  loop square_minus_two 1e-6 49 2%Z (mkBracket 1 2 (-1) 2)
       [mkRow 1 0 2 1 (-2) 2 (-1)].
Proof.
  exact (proj1 (bracket_update_rule square_minus_two 1e-6 49 1%Z
                 (mkBracket 0 2 (-2) 2) [] 1 (-1)
                 eq_refl eq_refl eq_refl)).
Defined.

(** ** C4: the stopping criterion *)

Lemma nth_error_last_row (l : list row) (r : row) :
  last_row l = Some r -> nth_error l (List.length l - 1) = Some r.
Proof.
  intros H. destruct (last_row_some l r H) as (l' & ->).
  rewrite length_app. cbn.
  replace (List.length l' + 1 - 1)%nat with (List.length l') by lia.
  rewrite nth_error_app2, Nat.sub_diag by lia. reflexivity.
Qed.

(** C4: in a returned frame every row before the last fails the test of line
    55 (and, when neither number is a NaN, has [tol < |fc|]); a row that
    passes the test is the last one; and a frame whose last row does not
    pass the test has used up all [max_iter] passes: nothing else ends the
    loop. *)
Theorem stopping_criterion (f : callable) (a b tol : float) (max_iter : Z)
        (df : DataFrame) :
  regula_falsi f a b tol max_iter = Returned df ->
  (forall k r, nth_error df k = Some r -> (S k < List.length df)%nat ->
     within_tol (r_fc r) tol = false /\
     (is_nan (r_fc r) = false -> is_nan tol = false ->
      (tol <? abs (r_fc r)) = true)) /\
  (forall k r, nth_error df k = Some r -> within_tol (r_fc r) tol = true ->
     S k = List.length df) /\
  (List.length df = Z.to_nat max_iter \/
   exists r, last_row df = Some r /\ within_tol (r_fc r) tol = true).
Proof.
  intros R.
  destruct (regula_falsi_entered f a b tol max_iter) as (fa & fb & Ha & Hb & Hs);
    [left; eauto|].
  destruct (regula_falsi_trace f a b tol max_iter fa fb Ha Hb Hs)
    as (T & _ & E).
  rewrite R in T, E. cbn [rows_of] in T.
  assert (Inner : forall k r, nth_error df k = Some r ->
                  (S k < List.length df)%nat ->
                  within_tol (r_fc r) tol = false)
    by (intros k r; apply (trace_inner_fails f tol df _ _ T)).
  repeat split.
  - eauto.
  - intros N1 N2. apply FloatFacts.leb_false_ltb; auto.
    + apply (Inner k r); assumption.
    + apply FloatFacts.abs_not_nan. exact N1.
  - intros k r Hk Hp.
    assert (k < List.length df)%nat by (apply nth_error_Some; congruence).
    destruct (Nat.lt_ge_cases (S k) (List.length df)) as [L|L]; [|lia].
    rewrite (Inner k r Hk L) in Hp. discriminate.
  - exact E.
Qed.

Lemma stopping_criterion_witness :
  exists df,
    regula_falsi square_minus_two 0 2 1e-6 50 = Returned df /\
    List.length df = 10%nat /\
    (forall k r, nth_error df k = Some r -> within_tol (r_fc r) 1e-6 = true ->
       S k = List.length df).
Proof.
  eexists. split; [vm_compute; reflexivity|]. split; [reflexivity|].
  refine (proj1 (proj2 (stopping_criterion square_minus_two 0 2 1e-6 50 _ _))).
  vm_compute. reflexivity.
Defined.

(** ** C5: the sign failure at entry *)

(** C5: when [f(a)] and [f(b)] have the same [numpy.sign], the call raises
    the [ValueError] of line 45 whatever the tolerance and the iteration
    bound; no row was appended, and the page shows the error and no
    table. *)
Theorem sign_failure_at_entry (f : callable) (a b tol : float) (max_iter : Z)
        (fa fb : float) :
  f a = inr fa -> f b = inr fb ->
  same_sign fa fb = true ->
  regula_falsi f a b tol max_iter = Raised (ValueError sign_message) [] /\
  compute_action f a b tol max_iter
    = Error_perhitungan (ValueError sign_message).
Proof.
  intros Ha Hb Hs. unfold compute_action, regula_falsi.
  rewrite Ha, Hb, Hs. split; reflexivity.
Qed.

Lemma sign_failure_at_entry_witness :
  plus_five 0 = inr 5 /\ plus_five 1 = inr 6 /\ same_sign 5 6 = true /\
  regula_falsi plus_five 0 1 1e-6 50 = Raised (ValueError sign_message) [].
Proof.
  split; [reflexivity|]. split; [reflexivity|]. split; [reflexivity|].
  exact (proj1 (sign_failure_at_entry plus_five 0 1 1e-6 50 5 6
                  eq_refl eq_refl eq_refl)).
Defined.

(** ** C6: the soft stop at [max_iter] *)

Lemma loop_no_convergence (f : callable) (tol : float) (n : nat) :
  forall (i : Z) (s : bracket) (rows : list row),
  no_convergence f tol n s = true ->
  exists new,
    loop f tol n i s rows = Returned (rows ++ new) /\
    List.length new = n /\
    Forall (fun r => within_tol (r_fc r) tol = false) new.
Proof.
  induction n as [|n IH]; intros i s rows H.
  - exists []. rewrite app_nil_r. repeat split. constructor.
  - rewrite loop_unfold. cbn [no_convergence] in H.
    destruct (false_position _ _ _ _) as [e|c]; [discriminate|].
    destruct (f c) as [e|fc]; [discriminate|].
    apply andb_true_iff in H. destruct H as [Ht Hn].
    apply negb_true_iff in Ht. rewrite Ht.
    destruct (IH (i + 1)%Z (update s c fc)
                 (rows ++ [mkRow i (br_a s) (br_b s) c (br_fa s) (br_fb s) fc])
                 Hn) as (new & Hl & Hlen & Hall).
    exists (mkRow i (br_a s) (br_b s) c (br_fa s) (br_fb s) fc :: new).
    rewrite Hl, <- app_assoc. repeat split.
    + cbn. lia.
    + constructor; [exact Ht | exact Hall].
Qed.

(** [no_convergence] read on traces: there is a trace of [n] rows from [s],
    none of which passes the test. *)
Lemma no_convergence_trace (f : callable) (tol : float) (n : nat) :
  forall (i : Z) (s : bracket),
  no_convergence f tol n s = true <->
  exists rows,
    trace_from f tol s i rows /\
    List.length rows = n /\
    Forall (fun r => within_tol (r_fc r) tol = false) rows.
Proof.
  induction n as [|n IH]; intros i s; split.
  - intros _. exists []. repeat split; constructor.
  - reflexivity.
  - cbn [no_convergence].
    destruct (false_position _ _ _ _) as [e|c] eqn:Hc; [discriminate|].
    destruct (f c) as [e|fc] eqn:Hfc; [discriminate|].
    intros H. apply andb_true_iff in H. destruct H as [Ht Hn].
    apply negb_true_iff in Ht.
    apply (IH (i + 1)%Z) in Hn. destruct Hn as (rows & T & L & A).
    exists (mkRow i (br_a s) (br_b s) c (br_fa s) (br_fb s) fc :: rows).
    repeat split.
    + apply trace_cons; auto.
    + cbn. lia.
    + constructor; assumption.
  - intros (rows & T & L & A).
    destruct rows as [|r rest]; [discriminate|].
    invert_trace T. inversion A as [|? ? A0 A']; subst. cbn [r_fc] in A0.
    cbn [no_convergence]. rewrite Hc, Hfc, A0. cbn [negb andb].
    apply (IH (i + 1)%Z). exists rest. repeat split; auto.
Qed.

(** C6, as stated, fails: a run in which no iterate comes within the
    tolerance can end in an error well before [max_iter].  On [[0.1, 0.7]]
    with the default tolerance and [max_iter = 50] the callable below
    passes the entry check, its only iterate has [f(c) = 3], and the second
    pass raises [ZeroDivisionError]: no frame is returned. *)
Lemma max_iter_soft_stop_counterexample :
  let o := regula_falsi plateau 0.1 0.7 1e-6 50 in
  plateau 0.1 = inr 0 /\
  plateau 0.7 = inr 3 /\
  same_sign 0 3 = false /\
  (exists r, o = Raised ZeroDivisionError [r]) /\
  map (fun r => (r_iter r, r_fc r, within_tol (r_fc r) 1e-6)) (rows_of o)
  = [(1%Z, 3, false)] /\
  compute_action plateau 0.1 0.7 1e-6 50
  = Error_perhitungan ZeroDivisionError.
Proof.
  vm_compute. repeat split. eexists. reflexivity.
Qed.

(** C6, amended: when the entry check passes and each of the
    [max_iter >= 1] passes computes its [c] without dividing by zero,
    evaluates [f] there without an exception and fails the test of line
    55, the call returns a frame of exactly [max_iter] rows; its last row
    carries the index [max_iter], and the page reports that row's [c] and
    [f(c)] and [max_iter] iterations, with [converged] false.
    Non-convergence itself raises nothing. *)
Theorem max_iter_soft_stop (f : callable) (a b tol : float) (max_iter : Z)
        (fa fb : float) :
  (1 <= max_iter)%Z ->
  f a = inr fa -> f b = inr fb ->
  same_sign fa fb = false ->
  no_convergence f tol (Z.to_nat max_iter) (mkBracket a b fa fb) = true ->
  exists df r,
    regula_falsi f a b tol max_iter = Returned df /\
    List.length df = Z.to_nat max_iter /\
    last_row df = Some r /\
    r_iter r = max_iter /\
    compute_action f a b tol max_iter
      = Ringkasan (r_c r) (r_fc r) max_iter df /\
    converged tol df = Some false.
Proof.
  intros Hm Ha Hb Hs Hn.
  destruct (loop_no_convergence f tol _ 1%Z _ [] Hn) as (df & Hl & Hlen & Hall).
  cbn [app] in Hl.
  assert (R : regula_falsi f a b tol max_iter = Returned df)
    by (rewrite (regula_falsi_enters f a b tol max_iter fa fb Ha Hb Hs);
        exact Hl).
  destruct (regula_falsi_trace f a b tol max_iter fa fb Ha Hb Hs) as (T & _).
  rewrite R in T. cbn [rows_of] in T.
  destruct (exists_last (l:=df)) as (l' & r & E).
  { intros ->. cbn in Hlen. lia. }
  assert (L : last_row df = Some r) by (rewrite E; apply last_row_snoc).
  assert (I : r_iter r = max_iter).
  { rewrite (trace_iter f tol df _ _ T _ r (nth_error_last_row df r L)).
    rewrite Hlen. lia. }
  exists df, r. repeat split; auto.
  - unfold compute_action. rewrite R, L, I. reflexivity.
  - unfold converged. rewrite L. cbn. f_equal.
    rewrite Forall_forall in Hall. apply Hall. rewrite E.
    apply in_or_app. right. left. reflexivity.
Qed.

Lemma max_iter_soft_stop_witness :
  exists df r,
    regula_falsi square_minus_two 0 2 1e-6 3 = Returned df /\
    List.length df = 3%nat /\
    last_row df = Some r /\
    r_iter r = 3%Z /\
    compute_action square_minus_two 0 2 1e-6 3
      = Ringkasan (r_c r) (r_fc r) 3 df /\
    converged 1e-6 df = Some false.
Proof.
  apply (max_iter_soft_stop square_minus_two 0 2 1e-6 3 (-2) 2);
    try reflexivity.
  lia.
Defined.

(** ** C7: where the false-position point lies *)

(** C7, as stated, fails on the binary64 numbers the code computes with:
    for [a = 1], [b = 2], [fa = -1e-17], [fb = 1] the signs differ, neither
    value is zero, [a <> b], and line 51 yields [c = 1.0], the endpoint [a]
    itself: both [1 + 2e-17] and [1 + 1e-17] round to [1].  The computed
    point can also leave the interval: for [a = 0.05], [b = 0.1], [fa = 3],
    [fb = -1e-30] it is one step above [b]. *)
Lemma false_position_bounding_counterexample :
  (1 =? 2) = false /\
  same_sign (-1e-17) 1 = false /\
  (-1e-17 =? 0) = false /\ (1 =? 0) = false /\
  false_position 1 2 (-1e-17) 1 = inr 1 /\
  (1 <? 1) = false /\
  same_sign 3 (-1e-30) = false /\
  exists c, false_position 0.05 0.1 3 (-1e-30) = inr c /\ (0.1 <? c) = true.
Proof. vm_compute. repeat split. eexists. split; reflexivity. Qed.

Lemma false_position_Q_swap (a b fa fb : Q) :
  ~ (fb - fa == 0)%Q ->
  (false_position_Q a b fa fb == false_position_Q b a fb fa)%Q.
Proof.
  intros D. unfold false_position_Q. field. split; [|exact D].
  intros E. apply D. lra.
Qed.

Lemma false_position_Q_ordered (a b fa fb : Q) :
  (a < b)%Q -> (fa < 0)%Q -> (0 < fb)%Q ->
  (a < false_position_Q a b fa fb)%Q /\ (false_position_Q a b fa fb < b)%Q.
Proof.
  intros Hab Hfa Hfb. unfold false_position_Q.
  assert (D : (0 < fb - fa)%Q) by lra.
  split.
  - apply Qlt_shift_div_l; [exact D|]. nra.
  - apply Qlt_shift_div_r; [exact D|]. nra.
Qed.

Lemma false_position_Q_ordered' (a b fa fb : Q) :
  (a < b)%Q -> (fb < 0)%Q -> (0 < fa)%Q ->
  (a < false_position_Q a b fa fb)%Q /\ (false_position_Q a b fa fb < b)%Q.
Proof.
  intros Hab Hfb Hfa.
  assert (E : (false_position_Q a b fa fb ==
               (b * fa - a * fb) / (fa - fb))%Q).
  { unfold false_position_Q. field. split; intros E; lra. }
  rewrite E. assert (D : (0 < fa - fb)%Q) by lra.
  split.
  - apply Qlt_shift_div_l; [exact D|]. nra.
  - apply Qlt_shift_div_r; [exact D|]. nra.
Qed.

(** The formula over the rationals: for [a <> b] and values of strictly
    opposite signs its point lies strictly between [min a b] and
    [max a b]. *)
Lemma false_position_Q_between (a b fa fb : Q) :
  ~ (a == b)%Q ->
  ((fa < 0)%Q /\ (0 < fb)%Q) \/ ((fb < 0)%Q /\ (0 < fa)%Q) ->
  (Qmin a b < false_position_Q a b fa fb)%Q /\
  (false_position_Q a b fa fb < Qmax a b)%Q.
Proof.
  intros Hne Hs.
  destruct (Q_dec a b) as [[Hlt|Hgt]|Heq]; [| |contradiction].
  - rewrite (Q.min_l a b), (Q.max_r a b) by lra.
    destruct Hs as [[Hfa Hfb]|[Hfb Hfa]].
    + apply false_position_Q_ordered; assumption.
    + apply false_position_Q_ordered'; assumption.
  - rewrite (Q.min_r a b), (Q.max_l a b) by lra.
    assert (D : ~ (fb - fa == 0)%Q) by (intros E; destruct Hs; lra).
    rewrite (false_position_Q_swap a b fa fb D).
    destruct Hs as [[Hfa Hfb]|[Hfb Hfa]].
    + apply false_position_Q_ordered'; assumption.
    + apply false_position_Q_ordered; assumption.
Qed.

(** A number that stands for a non-zero rational is not a zero. *)
Lemma float_value_nonzero (x : float) (q : Q) :
  float_value x = Some q -> ~ (q == 0)%Q -> (x =? 0) = false.
Proof.
  unfold float_value. rewrite FloatAxioms.eqb_spec, FloatFacts.Prim2SF_zero.
  destruct (Prim2SF x) as [s|s| |s m e]; try discriminate.
  - intros [= <-] H. exfalso. apply H. reflexivity.
  - intros _ _. destruct s; reflexivity.
Qed.

(** C7, amended: for finite [a], [b], [fa], [fb] standing for rationals
    with [a <> b] and [fa], [fb] of strictly opposite signs, whenever none
    of the five float operations of line 51 rounds, line 51 raises nothing
    and yields a finite [c] that stands for the exact false-position point
    and lies strictly between [min(a, b)] and [max(a, b)]. *)
Theorem false_position_between_when_exact (a b fa fb : float)
        (qa qb qfa qfb : Q) :
  float_value a = Some qa -> float_value b = Some qb ->
  float_value fa = Some qfa -> float_value fb = Some qfb ->
  ~ (qa == qb)%Q ->
  ((qfa < 0)%Q /\ (0 < qfb)%Q) \/ ((qfb < 0)%Q /\ (0 < qfa)%Q) ->
  line_51_exact a b fa fb ->
  exists c qc,
    false_position a b fa fb = inr c /\
    float_value c = Some qc /\
    (qc == false_position_Q qa qb qfa qfb)%Q /\
    (Qmin qa qb < qc)%Q /\ (qc < Qmax qa qb)%Q.
Proof.
  intros Ha Hb Hfa Hfb Hne Hs (E1 & E2 & E3 & E4 & E5).
  unfold exact_result in E1, E2, E3, E4, E5.
  rewrite Ha, Hfb in E1. rewrite Hb, Hfa in E2. rewrite Hfb, Hfa in E4.
  destruct (float_value (a * fb)) as [q1|] eqn:V1; [|contradiction].
  destruct (float_value (b * fa)) as [q2|] eqn:V2; [|contradiction].
  destruct (float_value (a * fb - b * fa)) as [qn|] eqn:Vn; [|contradiction].
  destruct (float_value (fb - fa)) as [qd|] eqn:Vd; [|contradiction].
  destruct (float_value ((a * fb - b * fa) / (fb - fa))) as [qc|] eqn:Vc;
    [|contradiction].
  assert (D : ~ (qd == 0)%Q) by (rewrite E4; destruct Hs; lra).
  assert (Hc : false_position a b fa fb
               = inr ((a * fb - b * fa) / (fb - fa))).
  { unfold false_position, py_truediv.
    rewrite (float_value_nonzero _ qd Vd D). reflexivity. }
  assert (Hq : (qc == false_position_Q qa qb qfa qfb)%Q).
  { unfold false_position_Q. rewrite E5, E3, E1, E2, E4. reflexivity. }
  exists ((a * fb - b * fa) / (fb - fa)), qc.
  split; [exact Hc|]. split; [exact Vc|]. split; [exact Hq|].
  rewrite Hq. apply false_position_Q_between; assumption.
Qed.

Lemma false_position_between_when_exact_witness :
  let q x := match float_value x with Some v => v | None => 0%Q end in
  let qa := q 0 in
  let qb := q 2 in
  let qfa := q (-2) in
  exists c qc,
    false_position 0 2 (-2) 2 = inr c /\
    float_value c = Some qc /\
    (qc == false_position_Q qa qb qfa qb)%Q /\
    (Qmin qa qb < qc)%Q /\ (qc < Qmax qa qb)%Q.
Proof.
  intros q qa qb qfa.
  apply (false_position_between_when_exact 0 2 (-2) 2 qa qb qfa qb);
    try reflexivity.
  - intros E. vm_compute in E. discriminate.
  - left. split; reflexivity.
  - repeat split; vm_compute; reflexivity.
Defined.

(** ** C8: evaluation failures *)

Lemma loop_raises (f : callable) (tol : float) (n : nat) :
  forall i s rows e rows',
  loop f tol n i s rows = Raised e rows' ->
  e = ZeroDivisionError \/ exists x, e = EvalError x.
Proof.
  induction n as [|n IH]; intros i s rows e rows'; [discriminate|].
  rewrite loop_unfold. unfold false_position, py_truediv.
  destruct (_ =? 0).
  - intros [= <- _]. left. reflexivity.
  - destruct (f _) as [x|fc]; [intros [= <- _]; right; eauto|].
    destruct (within_tol fc tol); [discriminate|]. apply IH.
Qed.

Lemma bracket_after_nil (s : bracket) : bracket_after s [] = s.
Proof. reflexivity. Qed.

Lemma bracket_after_cons (s : bracket) (i : Z) (c fc : float)
      (rest : list row) :
  bracket_after s (mkRow i (br_a s) (br_b s) c (br_fa s) (br_fb s) fc :: rest)
  = bracket_after (update s c fc) rest.
Proof.
  unfold bracket_after. destruct rest as [|r rest].
  - cbn [last_row map last]. rewrite bracket_of_row. reflexivity.
  - rewrite last_row_cons by discriminate.
    destruct (exists_last (l:=r :: rest)) as (l' & r' & ->); [discriminate|].
    rewrite last_row_snoc. reflexivity.
Qed.

(** Passes that appended the rows of a trace, none within the tolerance,
    leave the remaining passes to run from the variables after the last
    row. *)
Lemma loop_after_trace (f : callable) (tol : float) (rows : list row) :
  forall (s : bracket) (i : Z) (n : nat) (acc : list row),
  trace_from f tol s i rows ->
  Forall (fun r => within_tol (r_fc r) tol = false) rows ->
  loop f tol (List.length rows + n) i s acc
  = loop f tol n (i + Z.of_nat (List.length rows)) (bracket_after s rows)
         (acc ++ rows).
Proof.
  induction rows as [|r rest IH]; intros s i n acc T A.
  - cbn [List.length Nat.add Z.of_nat].
    rewrite Z.add_0_r, app_nil_r, bracket_after_nil. reflexivity.
  - invert_trace T. inversion A as [|? ? A0 A']; subst. cbn [r_fc] in A0.
    cbn [List.length Nat.add]. rewrite loop_unfold, Hc, Hfc, A0.
    rewrite (IH _ _ n _ Hrest A'), bracket_after_cons, <- app_assoc.
    cbn [app]. f_equal. lia.
Qed.

(** An exception of [f] that leaves the loop was raised at the [c] of the
    pass that follows the rows appended so far. *)
Lemma loop_eval_failure_origin (f : callable) (tol : float) (n : nat) :
  forall (i : Z) (s : bracket) (acc rows : list row) (msg : string),
  loop f tol n i s acc = Raised (EvalError msg) rows ->
  exists new y,
    rows = acc ++ new /\
    false_position (br_a (bracket_after s new)) (br_b (bracket_after s new))
                   (br_fa (bracket_after s new)) (br_fb (bracket_after s new))
      = inr y /\
    f y = inl msg.
Proof.
  induction n as [|n IH]; intros i s acc rows msg; [discriminate|].
  rewrite loop_unfold.
  destruct (false_position _ _ _ _) as [e0|c] eqn:Hc.
  - unfold false_position, py_truediv in Hc.
    destruct (_ =? 0); [|discriminate]. injection Hc as <-. discriminate.
  - destruct (f c) as [e0|fc] eqn:Hfc.
    + intros [= -> <-]. exists [], c. rewrite app_nil_r, bracket_after_nil.
      auto.
    + destruct (within_tol fc tol); [discriminate|]. intros R.
      destruct (IH _ _ _ _ _ R) as (new & y & -> & Hy & Hfy).
      exists (mkRow i (br_a s) (br_b s) c (br_fa s) (br_fb s) fc :: new), y.
      rewrite bracket_after_cons, <- app_assoc. auto.
Qed.

(** C8, as stated, fails on its own example: a domain violation need not
    be an evaluation failure.  [numpy] answers the square root (or the
    logarithm) of a negative number with a NaN and a warning, it raises
    nothing; [regula_falsi] takes the NaN as a value.  On [[-1, 4]] the
    entry check passes, every pass computes a NaN, and the call returns
    [max_iter] rows, which the page shows as a result. *)
Lemma eval_failure_counterexample :
  let o := regula_falsi sqrt_minus_one (-1) 4 1e-6 3 in
  sqrt_minus_one (-1) = inr nan /\
  sqrt_minus_one 4 = inr 1 /\
  same_sign nan 1 = false /\
  (exists df, o = Returned df /\
              compute_action sqrt_minus_one (-1) 4 1e-6 3
              = Ringkasan nan nan 3 df) /\
  map (fun r => (r_iter r, r_c r, r_fc r)) (rows_of o)
  = [(1%Z, nan, nan); (2%Z, nan, nan); (3%Z, nan, nan)].
Proof.
  vm_compute. split; [reflexivity|]. split; [reflexivity|].
  split; [reflexivity|]. split; [|reflexivity].
  eexists. split; reflexivity.
Qed.

(** C8, amended: [regula_falsi] has no [try]: an exception [e] that
    [float(f(x))] raises leaves the call unchanged ([EvalError e] marks its
    origin) whenever the call evaluates [f] at [x]: with [x] as the
    endpoint [a]; with [x] as the endpoint [b] when [f(a)] evaluated; as the
    [c] of a pass, from any loop variables; and, for a whole call that
    passed the entry check and appended the rows [rows], none within the
    tolerance, as the [c] of the next pass while passes remain: the call
    then ends with exactly those rows and no further one.  The caller's
    [except] clause catches it: the page shows the error.  Conversely an
    exception of [f] leaves a call only if [f] raised it, at [a], at [b] or
    at the [c] of the pass after the rows appended.  A value that is a NaN
    is not a failure. *)
Theorem eval_failure_propagates (f : callable) (x : float) (e : string) :
  f x = inl e ->
  (forall b tol max_iter,
     regula_falsi f x b tol max_iter = Raised (EvalError e) []) /\
  (forall a fa tol max_iter, f a = inr fa ->
     regula_falsi f a x tol max_iter = Raised (EvalError e) []) /\
  (forall tol n i s rows,
     false_position (br_a s) (br_b s) (br_fa s) (br_fb s) = inr x ->
     loop f tol (S n) i s rows = Raised (EvalError e) rows) /\
  (forall a b fa fb tol max_iter rows,
     f a = inr fa -> f b = inr fb -> same_sign fa fb = false ->
     trace_from f tol (mkBracket a b fa fb) 1 rows ->
     Forall (fun r => within_tol (r_fc r) tol = false) rows ->
     (Z.of_nat (List.length rows) < max_iter)%Z ->
     (let s := bracket_after (mkBracket a b fa fb) rows in
      false_position (br_a s) (br_b s) (br_fa s) (br_fb s) = inr x) ->
     regula_falsi f a b tol max_iter = Raised (EvalError e) rows /\
     compute_action f a b tol max_iter = Error_perhitungan (EvalError e)) /\
  (forall a b tol max_iter msg rows,
     regula_falsi f a b tol max_iter = Raised (EvalError msg) rows ->
     compute_action f a b tol max_iter = Error_perhitungan (EvalError msg) /\
     exists y,
       f y = inl msg /\
       (y = a \/ y = b \/
        exists fa fb,
          f a = inr fa /\ f b = inr fb /\
          let s := bracket_after (mkBracket a b fa fb) rows in
          false_position (br_a s) (br_b s) (br_fa s) (br_fb s) = inr y)).
Proof.
  intros Hx.
  split; [|split; [|split; [|split]]].
  - intros b tol max_iter. unfold regula_falsi. rewrite Hx. reflexivity.
  - intros a fa tol max_iter Ha. unfold regula_falsi. rewrite Ha, Hx.
    reflexivity.
  - intros tol n i s rows Hc. rewrite loop_unfold, Hc, Hx. reflexivity.
  - intros a b fa fb tol max_iter rows Ha Hb Hs T A Hlen Hc. cbv zeta in Hc.
    assert (R : regula_falsi f a b tol max_iter = Raised (EvalError e) rows).
    { rewrite (regula_falsi_enters f a b tol max_iter fa fb Ha Hb Hs).
      replace (Z.to_nat max_iter)
        with (List.length rows + S (Z.to_nat max_iter - S (List.length rows)))%nat
        by lia.
      rewrite (loop_after_trace f tol rows _ _ _ _ T A).
      rewrite loop_unfold, Hc, Hx. reflexivity. }
    split; [exact R|]. unfold compute_action. rewrite R. reflexivity.
  - intros a b tol max_iter msg rows R.
    split; [unfold compute_action; rewrite R; reflexivity|].
    unfold regula_falsi in R.
    destruct (f a) as [ea|fa] eqn:Ha.
    { injection R as -> _. exists a. auto. }
    destruct (f b) as [eb|fb] eqn:Hb.
    { injection R as -> _. exists b. auto. }
    destruct (same_sign fa fb); [discriminate|].
    destruct (loop_eval_failure_origin f tol _ _ _ _ _ _ R)
      as (new & y & -> & Hy & Hfy).
    exists y. split; [exact Hfy|]. right. right. exists fa, fb. auto.
Qed.

Lemma eval_failure_propagates_witness :
  reciprocal 0 = inl "ZeroDivisionError"%string /\
  false_position (-1) 1 (-1) 1 = inr 0 /\
  regula_falsi reciprocal (-1) 1 1e-6 50
    = Raised (EvalError "ZeroDivisionError") [] /\
  compute_action reciprocal (-1) 1 1e-6 50
    = Error_perhitungan (EvalError "ZeroDivisionError").
Proof.
  split; [reflexivity|]. split; [reflexivity|].
  destruct (eval_failure_propagates reciprocal 0 "ZeroDivisionError" eq_refl)
    as (_ & _ & _ & Hrun & _).
  exact (Hrun (-1) 1 (-1) 1 1e-6 50%Z [] eq_refl eq_refl eq_refl
              (trace_nil reciprocal 1e-6 _ _) (Forall_nil _) eq_refl eq_refl).
Defined.

(** ** C9: the shape of a returned frame *)

(** C9: a frame returned under [max_iter >= 1] has between [1] and
    [max_iter] rows, its [k]-th row (counting from one) carries the index
    [k], and the index of its last row, which the page reports as the
    number of iterations, is the number of rows. *)
Theorem trace_shape (f : callable) (a b tol : float) (max_iter : Z)
        (df : DataFrame) :
  (1 <= max_iter)%Z ->
  regula_falsi f a b tol max_iter = Returned df ->
  (1 <= List.length df <= Z.to_nat max_iter)%nat /\
  (forall k r, nth_error df k = Some r -> r_iter r = Z.of_nat (S k)) /\
  exists r,
    last_row df = Some r /\
    r_iter r = Z.of_nat (List.length df) /\
    compute_action f a b tol max_iter
      = Ringkasan (r_c r) (r_fc r) (Z.of_nat (List.length df)) df.
Proof.
  intros Hm R.
  destruct (regula_falsi_entered f a b tol max_iter) as (fa & fb & Ha & Hb & Hs);
    [left; eauto|].
  destruct (regula_falsi_trace f a b tol max_iter fa fb Ha Hb Hs)
    as (T & Hlen & E).
  rewrite R in T, Hlen, E. cbn [rows_of] in T, Hlen.
  assert (Idx : forall k r, nth_error df k = Some r ->
                r_iter r = Z.of_nat (S k)).
  { intros k r Hk. rewrite (trace_iter f tol df _ _ T k r Hk). lia. }
  assert (NE : df <> []).
  { intros ->. destruct E as [E|(r & E & _)]; [cbn in E; lia|discriminate]. }
  destruct (exists_last NE) as (l' & r & El).
  assert (L : last_row df = Some r) by (rewrite El; apply last_row_snoc).
  assert (I : r_iter r = Z.of_nat (List.length df)).
  { rewrite (Idx _ r (nth_error_last_row df r L)).
    destruct df; [congruence|]. cbn [List.length]. f_equal. lia. }
  split; [|split; [exact Idx|]].
  - split; [|exact Hlen]. destruct df; [congruence|]. cbn. lia.
  - exists r. repeat split; auto.
    unfold compute_action. rewrite R, L, I. reflexivity.
Qed.

Lemma trace_shape_witness :
  exists df,
    regula_falsi square_minus_two 0 2 1e-6 50 = Returned df /\
    (1 <= List.length df <= 50)%nat /\
    (forall k r, nth_error df k = Some r -> r_iter r = Z.of_nat (S k)).
Proof.
  eexists. split; [vm_compute; reflexivity|].
  refine (let H := trace_shape square_minus_two 0 2 1e-6 50 _ _ _ in
          conj (proj1 H) (proj1 (proj2 H))).
  - lia.
  - vm_compute. reflexivity.
Defined.

(** ** C10: an exact zero at an endpoint *)



(** * Further properties of the code *)

(** ** Rounding a non-zero number

    A sum or difference of two binary64 numbers whose exact value is not
    zero does not round to zero: the exponent of the exact result is not
    below the least exponent, so no digit that counts is shifted out. *)

Module Rounding.

Local Open Scope Z_scope.

Lemma shr_1_positive (p : positive) (r s : bool) :
  digits2_pos p <> 1%positive ->
  exists p' r' s',
    shr_1 (Build_shr_record (Zpos p) r s) = Build_shr_record (Zpos p') r' s' /\
    digits2_pos p = Pos.succ (digits2_pos p').
Proof.
  destruct p as [p|p|]; cbn; intros H; try congruence; eauto.
Qed.

Lemma iter_shr_1_positive (n : positive) :
  forall (p : positive) (r s : bool),
  Zpos n < Zpos (digits2_pos p) ->
  exists p' r' s',
    SpecFloat.iter_pos shr_1 n (Build_shr_record (Zpos p) r s)
      = Build_shr_record (Zpos p') r' s' /\
    Zpos (digits2_pos p) = Zpos (digits2_pos p') + Zpos n.
Proof.
  induction n as [n IH|n IH|]; intros p r s H; cbn [SpecFloat.iter_pos].
  - destruct (shr_1_positive p r s) as (p0 & r0 & s0 & E0 & D0); [lia|].
    rewrite E0.
    destruct (IH p0 r0 s0) as (p1 & r1 & s1 & E1 & D1); [lia|]. rewrite E1.
    destruct (IH p1 r1 s1) as (p2 & r2 & s2 & E2 & D2); [lia|]. rewrite E2.
    exists p2, r2, s2. split; [reflexivity|lia].
  - destruct (IH p r s) as (p1 & r1 & s1 & E1 & D1); [lia|]. rewrite E1.
    destruct (IH p1 r1 s1) as (p2 & r2 & s2 & E2 & D2); [lia|]. rewrite E2.
    exists p2, r2, s2. split; [reflexivity|lia].
  - destruct (shr_1_positive p r s) as (p0 & r0 & s0 & E0 & D0); [lia|].
    exists p0, r0, s0. split; [exact E0|lia].
Qed.

Lemma shr_fexp_positive (m : positive) (e : Z) (l : location) :
  -1074 <= e ->
  exists p r s e',
    shr_fexp prec emax (Zpos m) e l = (Build_shr_record (Zpos p) r s, e') /\
    -1074 <= e'.
Proof.
  intros He. unfold shr_fexp, shr.
  assert (R : exists r s, shr_record_of_loc (Zpos m) l
                          = Build_shr_record (Zpos m) r s)
    by (destruct l as [|[]]; cbn; eauto).
  destruct R as (r & s & ->).
  destruct (fexp prec emax (Zdigits2 (Zpos m) + e) - e) as [|n|n] eqn:N;
    try (exists m, r, s, e; split; [reflexivity|lia]).
  unfold fexp, SpecFloat.emin, prec, emax in N. cbn [Zdigits2] in N.
  destruct (iter_shr_1_positive n m r s) as (p' & r' & s' & E & _); [lia|].
  rewrite E. exists p', r', s', (e + Zpos n). split; [reflexivity|lia].
Qed.

Lemma round_nearest_even_positive (p : positive) (l : location) :
  exists q, round_nearest_even (Zpos p) l = Zpos q.
Proof.
  destruct l as [|[]]; cbn; try destruct p; cbn; eauto.
Qed.

Lemma binary_round_aux_not_zero (sx : bool) (m : positive) (e : Z)
      (l : location) (sz : bool) :
  -1074 <= e -> binary_round_aux prec emax sx (Zpos m) e l <> S754_zero sz.
Proof.
  intros He. unfold binary_round_aux.
  destruct (shr_fexp_positive m e l He) as (p & r & s & e' & -> & He').
  cbn [shr_m].
  destruct (round_nearest_even_positive p
              (loc_of_shr_record (Build_shr_record (Zpos p) r s))) as (q & ->).
  destruct (shr_fexp_positive q e' loc_Exact He') as (p2 & r2 & s2 & e2 & -> & _).
  cbn [shr_m]. destruct (e2 <=? emax - prec); discriminate.
Qed.

Lemma binary_round_not_zero (sx : bool) (m : positive) (e : Z) (sz : bool) :
  -1074 <= e -> binary_round prec emax sx m e <> S754_zero sz.
Proof.
  intros He. unfold binary_round, shl_align.
  destruct (fexp prec emax (Zpos (digits2_pos m) + e) - e) as [|d|d] eqn:D;
    try (apply binary_round_aux_not_zero; exact He).
  apply binary_round_aux_not_zero.
  unfold fexp, SpecFloat.emin, prec, emax. lia.
Qed.

Lemma valid_exponent (s : bool) (m : positive) (e : Z) :
  valid_binary (S754_finite s m e) = true -> -1074 <= e.
Proof.
  unfold valid_binary, bounded, canonical_mantissa. intros H.
  apply andb_true_iff in H. destruct H as [H _]. apply Z.eqb_eq in H.
  unfold fexp, SpecFloat.emin, prec, emax in H. lia.
Qed.


Lemma SF64sub_opposite_not_zero (sx : bool) (mx : positive) (ex : Z)
      (my : positive) (ey : Z) (sz : bool) :
  -1074 <= ex -> -1074 <= ey ->
  SF64sub (S754_finite sx mx ex) (S754_finite (negb sx) my ey) <> S754_zero sz.
Proof.
  intros Hx Hy. unfold SF64sub, SFsub. cbv zeta.
  destruct sx; cbn [negb cond_Zopp Z.opp Z.sub Z.add Z.pos_sub binary_normalize];
    apply binary_round_not_zero; lia.
Qed.

Lemma sub_opposite_not_zero (x y : float) :
  (x <? 0)%float = true -> (0 <? y)%float = true ->
  (y - x =? 0)%float = false /\ (x - y =? 0)%float = false.
Proof.
  rewrite !ltb_spec, !FloatAxioms.eqb_spec, !sub_spec, FloatFacts.Prim2SF_zero.
  pose proof (Prim2SF_valid x) as Vx. pose proof (Prim2SF_valid y) as Vy.
  destruct (Prim2SF x) as [s|s| |s m e]; try destruct s; try discriminate;
    destruct (Prim2SF y) as [s'|s'| |s' m' e']; try destruct s';
    try discriminate; intros _ _; try (split; reflexivity).
  apply valid_exponent in Vx, Vy. split.
  - unfold SFeqb.
    destruct (SF64sub _ _) as [sz|sz| |sz mz ez] eqn:E;
      try reflexivity; try (destruct sz; reflexivity).
    exfalso. exact (SF64sub_opposite_not_zero false m' e' m e sz Vy Vx E).
  - unfold SFeqb.
    destruct (SF64sub _ _) as [sz|sz| |sz mz ez] eqn:E;
      try reflexivity; try (destruct sz; reflexivity).
    exfalso. exact (SF64sub_opposite_not_zero true m e m' e' sz Vx Vy E).
Qed.

End Rounding.

(** ** More facts about the tests of the source *)

Module TestFacts.

Import FloatFacts.

Lemma SFleb_finite (s1 : bool) (m1 : positive) (e1 : Z)
      (s2 : bool) (m2 : positive) (e2 : Z) :
  SFleb (S754_finite s1 m1 e1) (S754_finite s2 m2 e2) = true <->
  match s1, s2 with
  | true, false => True
  | false, true => False
  | false, false => (e1 < e2)%Z \/ (e1 = e2 /\ (m1 <= m2)%positive)
  | true, true => (e2 < e1)%Z \/ (e1 = e2 /\ (m2 <= m1)%positive)
  end.
Proof.
  unfold SFleb, SFcompare.
  change (Pos.compare_cont Eq m1 m2) with (m1 ?= m2)%positive.
  destruct s1, s2; try (split; [auto; discriminate | reflexivity]);
    try (split; [discriminate | contradiction]).
  all: destruct (Z.compare_spec e1 e2); destruct (Pos.compare_spec m1 m2);
    cbn; split; intros H'; try reflexivity; try discriminate; try lia.
Qed.

Lemma SFleb_trans (x y z : spec_float) :
  SFleb x y = true -> SFleb y z = true -> SFleb x z = true.
Proof.
  destruct x as [s1|s1| |s1 m1 e1], y as [s2|s2| |s2 m2 e2],
           z as [s3|s3| |s3 m3 e3];
    try (try destruct s1; try destruct s2; try destruct s3; cbn;
         congruence).
  rewrite !SFleb_finite. destruct s1, s2, s3; try tauto; lia.
Qed.

Lemma leb_trans (x y z : float) :
  (x <=? y) = true -> (y <=? z) = true -> (x <=? z) = true.
Proof. rewrite !leb_spec. apply SFleb_trans. Qed.

(** A tolerance that line 55 can ever accept is [>= 0]; a NaN value is
    never accepted. *)
Lemma within_tol_nonneg (fc tol : float) :
  within_tol fc tol = true -> (0 <=? tol) = true.
Proof.
  unfold within_tol. to_spec.
  destruct (Prim2SF fc) as [s|s| |s m e], (Prim2SF tol) as [s'|s'| |s' m' e'];
    try destruct s; try destruct s'; cbn; congruence.
Qed.

Lemma nan_within_tol (fc tol : float) :
  is_nan fc = true -> within_tol fc tol = false.
Proof.
  unfold within_tol. rewrite is_nan_spec, leb_spec, abs_spec.
  intros ->. reflexivity.
Qed.

Lemma within_tol_mono (fc tol tol' : float) :
  (tol <=? tol') = true -> within_tol fc tol = true ->
  within_tol fc tol' = true.
Proof.
  unfold within_tol. intros H1 H2. exact (leb_trans _ _ _ H2 H1).
Qed.

(** Line 44 on NaNs and on one value twice. *)
Lemma same_sign_nan (fa fb : float) :
  is_nan fa = true \/ is_nan fb = true -> same_sign fa fb = false.
Proof.
  unfold same_sign. intros [N|N].
  - sign_cases fa; try (destruct (nan_compare_zero fa N) as (A & B & C);
                        congruence).
    apply nan_eqb_l. exact N.
  - sign_cases fb; try (destruct (nan_compare_zero fb N) as (A & B & C);
                        congruence).
    apply nan_eqb_r. exact N.
Qed.

Lemma same_sign_refl (x : float) : is_nan x = false -> same_sign x x = true.
Proof.
  unfold same_sign. intros N. sign_cases x; try reflexivity. congruence.
Qed.

Lemma ltb_zero_not_eqb (x : float) :
  (0 <? x) = true \/ (x <? 0) = true -> (x =? 0) = false.
Proof.
  intros H. destruct (x =? 0) eqn:Z; [|reflexivity].
  destruct (eqb_zero_ltb x Z) as [A B]. destruct H; congruence.
Qed.

Lemma nan_sub_not_zero (x y : float) :
  is_nan x = true \/ is_nan y = true -> (y - x =? 0) = false.
Proof.
  rewrite !is_nan_spec, FloatAxioms.eqb_spec, sub_spec.
  intros [-> | ->]; [rewrite SF64sub_nan_r|]; reflexivity.
Qed.

(** The entry check, and the invariant after it, keep the denominator of
    line 51 away from zero. *)
Lemma same_sign_false_denominator (fa fb : float) :
  same_sign fa fb = false -> (fb - fa =? 0) = false.
Proof.
  unfold same_sign. intros S.
  destruct (np_sign_view fa) as [Ha Ea|Ha Ea|Ha Ea|Ha Ea];
    destruct (np_sign_view fb) as [Hb Eb|Hb Eb|Hb Eb|Hb Eb];
    rewrite Ea, Eb in S; try (vm_compute in S; discriminate);
    try (apply nan_sub_not_zero; auto; fail).
  - apply (Rounding.sub_opposite_not_zero fb fa Hb Ha).
  - apply zero_vs_nonzero_r; [exact Hb|]. apply ltb_zero_not_eqb. auto.
  - apply (Rounding.sub_opposite_not_zero fa fb Ha Hb).
  - apply zero_vs_nonzero_r; [exact Hb|]. apply ltb_zero_not_eqb. auto.
  - apply zero_vs_nonzero_l; [exact Ha|]. apply ltb_zero_not_eqb. auto.
  - apply zero_vs_nonzero_l; [exact Ha|]. apply ltb_zero_not_eqb. auto.
Qed.

Lemma same_sign_false_position (a b fa fb : float) :
  same_sign fa fb = false ->
  false_position a b fa fb = inr ((a * fb - b * fa) / (fb - fa)).
Proof.
  intros S. unfold false_position, py_truediv.
  rewrite (same_sign_false_denominator fa fb S). reflexivity.
Qed.

(** A NaN on either side makes the point of line 51 a NaN. *)
Lemma nan_value_false_position (a b fa fb : float) :
  is_nan fa = true \/ is_nan fb = true ->
  exists c, false_position a b fa fb = inr c /\ is_nan c = true.
Proof.
  intros N. rewrite (same_sign_false_position a b fa fb (same_sign_nan _ _ N)).
  eexists. split; [reflexivity|].
  apply is_nan_spec. rewrite div_spec, !sub_spec, !mul_spec.
  destruct N as [N|N]; apply is_nan_spec in N; rewrite N.
  - rewrite SF64mul_nan_r, SF64sub_nan_r. reflexivity.
  - rewrite SF64mul_nan_r. reflexivity.
Qed.

End TestFacts.

(** ** More about the loop *)

Section MoreLoop.

Variable f : callable.
Variable tol : float.

(** The loop keeps [fa = f(a)] and [fb = f(b)]. *)
Lemma trace_values (rows : list row) :
  forall s i, trace_from f tol s i rows ->
  f (br_a s) = inr (br_fa s) -> f (br_b s) = inr (br_fb s) ->
  Forall (fun r => f (r_a r) = inr (r_fa r) /\ f (r_b r) = inr (r_fb r) /\
                   false_position (r_a r) (r_b r) (r_fa r) (r_fb r)
                     = inr (r_c r) /\
                   f (r_c r) = inr (r_fc r)) rows.
Proof.
  induction rows as [|r0 rows IH]; intros s i T Ha Hb; [constructor|].
  invert_trace T. constructor; [cbn; auto|].
  apply (IH _ _ Hrest); unfold update; destruct (opposite (br_fa s) fc);
    cbn; assumption.
Qed.

(** More passes only add rows. *)
Lemma loop_prefix (n : nat) :
  forall (m : nat) (i : Z) (s : bracket) (rows : list row),
  (n <= m)%nat ->
  exists ext,
    rows_of (loop f tol m i s rows) = rows_of (loop f tol n i s rows) ++ ext.
Proof.
  induction n as [|n IH]; intros m i s rows L.
  - destruct (loop_trace f tol m i s rows) as (new & E & _).
    exists new. exact E.
  - destruct m as [|m]; [lia|]. rewrite !loop_unfold.
    destruct (false_position _ _ _ _) as [e|c];
      [exists []; symmetry; apply app_nil_r|].
    destruct (f c) as [e|fc]; [exists []; symmetry; apply app_nil_r|].
    destruct (within_tol fc tol); [exists []; symmetry; apply app_nil_r|].
    apply IH. lia.
Qed.

(** A call that stopped at line 56 does the same with more passes. *)
Lemma loop_stops_early (n : nat) :
  forall (i : Z) (s : bracket) (rows new : list row) (r : row),
  loop f tol n i s rows = Returned (rows ++ new) ->
  last_row new = Some r -> within_tol (r_fc r) tol = true ->
  forall m, (n <= m)%nat -> loop f tol m i s rows = Returned (rows ++ new).
Proof.
  induction n as [|n IH]; intros i s rows new r R L P m Hm.
  - cbn in R. injection R as R.
    rewrite <- (app_nil_r rows) in R at 1. apply app_inv_head in R.
    subst new. discriminate.
  - destruct m as [|m]; [lia|]. rewrite loop_unfold in R |- *.
    destruct (false_position _ _ _ _) as [e|c]; [discriminate|].
    destruct (f c) as [e|fc]; [discriminate|].
    destruct (within_tol fc tol) eqn:Ht; [exact R|].
    set (r0 := mkRow i (br_a s) (br_b s) c (br_fa s) (br_fb s) fc) in *.
    destruct (loop_trace f tol n (i + 1)%Z (update s c fc) (rows ++ [r0]))
      as (new' & E & _).
    rewrite R in E. cbn [rows_of] in E. rewrite <- app_assoc in E.
    apply app_inv_head in E. cbn [app] in E. subst new.
    destruct new' as [|r1 new''].
    { cbn in L. injection L as <-. unfold r0 in P. cbn [r_fc] in P.
      congruence. }
    assert (L' : last_row (r1 :: new'') = Some r) by exact L.
    replace (rows ++ r0 :: r1 :: new'')
      with ((rows ++ [r0]) ++ r1 :: new'') in R |- *
      by (rewrite <- app_assoc; reflexivity).
    apply (IH _ _ _ _ r R L' P). lia.
Qed.

(** Rows appended before an exception all failed the test of line 55. *)
Lemma loop_raised_rows_fail (n : nat) :
  forall (i : Z) (s : bracket) (rows rows' : list row) (e : exception),
  loop f tol n i s rows = Raised e rows' ->
  exists new,
    rows' = rows ++ new /\
    Forall (fun r => within_tol (r_fc r) tol = false) new.
Proof.
  induction n as [|n IH]; intros i s rows rows' e; [discriminate|].
  rewrite loop_unfold.
  destruct (false_position _ _ _ _) as [e0|c].
  { intros [= _ <-]. exists []. rewrite app_nil_r. split; constructor. }
  destruct (f c) as [e0|fc].
  { intros [= _ <-]. exists []. rewrite app_nil_r. split; constructor. }
  destruct (within_tol fc tol) eqn:Ht; [discriminate|].
  intros R. apply IH in R. destruct R as (new & -> & A).
  eexists (_ :: new). rewrite <- app_assoc. split; [reflexivity|].
  constructor; [exact Ht | exact A].
Qed.

(** Where a [ZeroDivisionError] comes from: the variables of the raising
    pass, which are the entry ones or the update of the last row, have a
    zero denominator. *)
Lemma loop_zero_division (n : nat) :
  forall (i : Z) (s : bracket) (rows rows' : list row),
  loop f tol n i s rows = Raised ZeroDivisionError rows' ->
  (rows' = rows /\ (br_fb s - br_fa s =? 0) = true) \/
  exists r,
    last_row rows' = Some r /\
    (br_fb (update (bracket_of r) (r_c r) (r_fc r))
     - br_fa (update (bracket_of r) (r_c r) (r_fc r)) =? 0) = true.
Proof.
  induction n as [|n IH]; intros i s rows rows'; [discriminate|].
  rewrite loop_unfold. unfold false_position, py_truediv.
  destruct (br_fb s - br_fa s =? 0) eqn:D.
  { intros [= <-]. left. split; reflexivity. }
  destruct (f _) as [e0|fc]; [discriminate|].
  destruct (within_tol fc tol); [discriminate|].
  intros R. apply IH in R. destruct R as [[-> Z]|R]; [|right; exact R].
  right. eexists. split; [apply last_row_snoc|].
  rewrite bracket_of_row. exact Z.
Qed.

(** An [EvalError] is an exception of [f]. *)
Lemma loop_eval_error (n : nat) :
  forall (i : Z) (s : bracket) (rows rows' : list row) (msg : string),
  loop f tol n i s rows = Raised (EvalError msg) rows' ->
  exists x, f x = inl msg.
Proof.
  induction n as [|n IH]; intros i s rows rows' msg; [discriminate|].
  rewrite loop_unfold. unfold false_position, py_truediv.
  destruct (_ =? 0); [discriminate|].
  destruct (f _) as [e0|fc] eqn:E; [intros [= <- _]; eauto|].
  destruct (within_tol fc tol); [discriminate|]. apply IH.
Qed.

(** One pass keeps "the signs differ and [fa] is not zero". *)
Lemma update_keeps_invariant (s : bracket) (c fc : float) :
  (0 <=? tol) = true -> nan_strict f ->
  same_sign (br_fa s) (br_fb s) = false -> (br_fa s =? 0) = false ->
  false_position (br_a s) (br_b s) (br_fa s) (br_fb s) = inr c ->
  f c = inr fc -> within_tol fc tol = false ->
  same_sign (br_fa (update s c fc)) (br_fb (update s c fc)) = false /\
  (br_fa (update s c fc) =? 0) = false.
Proof.
  intros Htol Hf Hs Hnz Hc Hfc Ht.
  assert (Hz : (fc =? 0) = false).
  { destruct (fc =? 0) eqn:Z; [|reflexivity].
    rewrite (FloatFacts.zero_within_tol fc tol Z Htol) in Ht. discriminate. }
  assert (Hnan : is_nan (br_fa s) = true -> is_nan fc = true).
  { intros N. apply (Hf c fc); [|exact Hfc].
    exact (FloatFacts.nan_false_position _ _ _ _ _ N Hc). }
  unfold update. destruct (opposite (br_fa s) fc) eqn:O; cbn; split; auto.
  - apply FloatFacts.opposite_not_same_sign. exact O.
  - apply (FloatFacts.else_branch_keeps_bracket _ _ _ Hs Hnz Hz Hnan O).
Qed.

Lemma loop_never_divides_by_zero (n : nat) :
  (0 <=? tol) = true -> nan_strict f ->
  forall (i : Z) (s : bracket) (rows rows' : list row),
  same_sign (br_fa s) (br_fb s) = false -> (br_fa s =? 0) = false ->
  loop f tol n i s rows <> Raised ZeroDivisionError rows'.
Proof.
  intros Htol Hf. induction n as [|n IH]; intros i s rows rows' Hs Hnz;
    [discriminate|].
  rewrite loop_unfold.
  pose proof (TestFacts.same_sign_false_position (br_a s) (br_b s) _ _ Hs)
    as Hc.
  rewrite Hc. destruct (f _) as [e|fc] eqn:Hfc; [discriminate|].
  destruct (within_tol fc tol) eqn:Ht; [discriminate|].
  destruct (update_keeps_invariant s _ fc Htol Hf Hs Hnz Hc Hfc Ht)
    as [Hs' Hnz'].
  apply IH; assumption.
Qed.

(** With a NaN among the two values every pass produces NaNs and the loop
    runs out of passes. *)
Lemma loop_on_nan (n : nat) :
  nan_strict f ->
  (forall x, is_nan x = true -> exists y, f x = inr y) ->
  forall (i : Z) (s : bracket) (rows : list row),
  is_nan (br_fa s) = true \/ is_nan (br_fb s) = true ->
  exists new,
    loop f tol n i s rows = Returned (rows ++ new) /\
    List.length new = n /\
    Forall (fun r => is_nan (r_c r) = true /\ is_nan (r_fc r) = true) new.
Proof.
  intros Hf Hev. induction n as [|n IH]; intros i s rows N.
  - exists []. rewrite app_nil_r. repeat split. constructor.
  - rewrite loop_unfold.
    destruct (TestFacts.nan_value_false_position (br_a s) (br_b s) _ _ N)
      as (c & -> & Nc).
    destruct (Hev c Nc) as (fc & Hfc). rewrite Hfc.
    pose proof (Hf c fc Nc Hfc) as Nfc.
    rewrite (TestFacts.nan_within_tol fc tol Nfc).
    assert (U : update s c fc = mkBracket c (br_b s) fc (br_fb s)).
    { unfold update, opposite.
      rewrite FloatFacts.nan_mul_ltb_r; [reflexivity|].
      destruct (FloatFacts.np_sign_view fc) as [H E|H E|H E|H E];
        destruct (FloatFacts.nan_compare_zero fc Nfc) as (A & B & C);
        congruence. }
    rewrite U.
    destruct (IH (i + 1)%Z (mkBracket c (br_b s) fc (br_fb s))
                 (rows ++ [mkRow i (br_a s) (br_b s) c (br_fa s) (br_fb s) fc]))
      as (new & E & L & A); [left; exact Nfc|].
    eexists (_ :: new). rewrite E, <- app_assoc.
    split; [reflexivity|]. split; [cbn; lia|].
    constructor; [split; assumption | exact A].
Qed.

End MoreLoop.

(** A looser tolerance stops no later, on the same rows. *)
Lemma loop_tol_prefix (f : callable) (tol tol' : float) (n : nat) :
  (tol <=? tol') = true ->
  forall (i : Z) (s : bracket) (rows : list row),
  exists ext,
    rows_of (loop f tol n i s rows) = rows_of (loop f tol' n i s rows) ++ ext.
Proof.
  intros Hle. induction n as [|n IH]; intros i s rows.
  - exists []. symmetry. apply app_nil_r.
  - rewrite !loop_unfold.
    destruct (false_position _ _ _ _) as [e|c];
      [exists []; symmetry; apply app_nil_r|].
    destruct (f c) as [e|fc]; [exists []; symmetry; apply app_nil_r|].
    destruct (within_tol fc tol') eqn:Ht'.
    + destruct (within_tol fc tol); [exists []; symmetry; apply app_nil_r|].
      destruct (loop_trace f tol n (i + 1)%Z (update s c fc)
                  (rows ++ [mkRow i (br_a s) (br_b s) c (br_fa s) (br_fb s) fc]))
        as (new & E & _).
      exists new. exact E.
    + destruct (within_tol fc tol) eqn:Ht; [|apply IH].
      rewrite (TestFacts.within_tol_mono fc tol tol' Hle Ht) in Ht'.
      discriminate.
Qed.

(** ** What the rows of a call record *)

(** X1: in every row a call appends, [f(a)] and [f(b)] are the values of [f]
    at the row's [a] and [b], [c] is the point line 51 computes from them
    without raising, and [f(c)] is the value of [f] at [c]. *)
Theorem rows_hold_function_values (f : callable) (a b tol : float)
        (max_iter : Z) :
  Forall (fun r => f (r_a r) = inr (r_fa r) /\ f (r_b r) = inr (r_fb r) /\
                   false_position (r_a r) (r_b r) (r_fa r) (r_fb r)
                     = inr (r_c r) /\
                   f (r_c r) = inr (r_fc r))
         (rows_of (regula_falsi f a b tol max_iter)).
Proof.
  destruct (rows_of (regula_falsi f a b tol max_iter)) as [|r0 l] eqn:E;
    [constructor|].
  destruct (regula_falsi_entered f a b tol max_iter)
    as (fa & fb & Ha & Hb & Hs); [right; congruence|].
  destruct (regula_falsi_trace f a b tol max_iter fa fb Ha Hb Hs) as (T & _).
  rewrite <- E. exact (trace_values f tol _ _ _ T Ha Hb).
Qed.

(** X2: a row that is followed by another failed the test of line 55, and
    the next row carries the next index, keeps one endpoint of the row with
    its value and has the row's [c] and [f(c)] as the other. *)
Theorem next_row_replaces_one_endpoint (f : callable) (a b tol : float)
        (max_iter : Z) (k : nat) (r r' : row) :
  nth_error (rows_of (regula_falsi f a b tol max_iter)) k = Some r ->
  nth_error (rows_of (regula_falsi f a b tol max_iter)) (S k) = Some r' ->
  r_iter r' = (r_iter r + 1)%Z /\
  within_tol (r_fc r) tol = false /\
  ((r_a r' = r_a r /\ r_fa r' = r_fa r /\
    r_b r' = r_c r /\ r_fb r' = r_fc r) \/
   (r_a r' = r_c r /\ r_fa r' = r_fc r /\
    r_b r' = r_b r /\ r_fb r' = r_fb r)).
Proof.
  intros Hk Hk'.
  destruct (regula_falsi_entered f a b tol max_iter)
    as (fa & fb & Ha & Hb & Hs).
  { right. intros E. rewrite E in Hk. destruct k; discriminate. }
  destruct (regula_falsi_trace f a b tol max_iter fa fb Ha Hb Hs) as (T & _).
  split; [|split].
  - rewrite (trace_iter f tol _ _ _ T _ _ Hk), (trace_iter f tol _ _ _ T _ _ Hk').
    lia.
  - apply (trace_inner_fails f tol _ _ _ T k r Hk).
    apply nth_error_Some. congruence.
  - destruct (trace_step f tol _ _ _ T k r Hk) as (_ & _ & U).
    specialize (U r' Hk'). unfold update, bracket_of in U.
    cbn [br_a br_b br_fa br_fb] in U.
    destruct (opposite (r_fa r) (r_fc r)); injection U as -> -> -> ->; auto.
Qed.

Lemma next_row_replaces_one_endpoint_witness :
  exists r r',
    nth_error (rows_of (regula_falsi square_minus_two 0 2 1e-6 50)) 0
      = Some r /\
    nth_error (rows_of (regula_falsi square_minus_two 0 2 1e-6 50)) 1
      = Some r' /\
    r_iter r' = (r_iter r + 1)%Z /\
    within_tol (r_fc r) 1e-6 = false /\
    ((r_a r' = r_a r /\ r_fa r' = r_fa r /\
      r_b r' = r_c r /\ r_fb r' = r_fc r) \/
     (r_a r' = r_c r /\ r_fa r' = r_fc r /\
      r_b r' = r_b r /\ r_fb r' = r_fb r)).
Proof.
  exists (mkRow 1 0 2 1 (-2) 2 (-1)). eexists.
  split; [vm_compute; reflexivity|]. split; [vm_compute; reflexivity|].
  apply (next_row_replaces_one_endpoint square_minus_two 0 2 1e-6 50 0);
    vm_compute; reflexivity.
Defined.

(** ** The two bounds of the loop *)

(** X3: raising [max_iter] only adds rows after the ones already there, and
    a call that stopped on a row within the tolerance returns the very same
    frame under every larger [max_iter]. *)
Theorem larger_max_iter_extends (f : callable) (a b tol : float)
        (max_iter max_iter' : Z) :
  (max_iter <= max_iter')%Z ->
  (exists ext,
     rows_of (regula_falsi f a b tol max_iter')
       = rows_of (regula_falsi f a b tol max_iter) ++ ext) /\
  (forall df r,
     regula_falsi f a b tol max_iter = Returned df ->
     last_row df = Some r -> within_tol (r_fc r) tol = true ->
     regula_falsi f a b tol max_iter' = Returned df).
Proof.
  intros Hm. assert (Hn : (Z.to_nat max_iter <= Z.to_nat max_iter')%nat) by lia.
  unfold regula_falsi.
  destruct (f a) as [e|fa]; [split; [exists []; reflexivity | discriminate]|].
  destruct (f b) as [e|fb]; [split; [exists []; reflexivity | discriminate]|].
  destruct (same_sign fa fb);
    [split; [exists []; reflexivity | discriminate]|].
  split.
  - apply loop_prefix. exact Hn.
  - intros df r R L P.
    apply (loop_stops_early f tol _ _ _ [] df r R L P _ Hn).
Qed.

Lemma larger_max_iter_extends_witness :
  (exists ext,
     rows_of (regula_falsi square_minus_two 0 2 1e-6 50)
       = rows_of (regula_falsi square_minus_two 0 2 1e-6 3) ++ ext) /\
  (forall df r,
     regula_falsi square_minus_two 0 2 1e-6 3 = Returned df ->
     last_row df = Some r -> within_tol (r_fc r) 1e-6 = true ->
     regula_falsi square_minus_two 0 2 1e-6 50 = Returned df).
Proof.
  apply (larger_max_iter_extends square_minus_two 0 2 1e-6 3 50). lia.
Defined.

(** X4: with a larger tolerance the call appends the same rows and stops no
    later: its rows are an initial part of the rows under the smaller
    tolerance. *)
Theorem looser_tolerance_stops_earlier (f : callable) (a b tol tol' : float)
        (max_iter : Z) :
  (tol <=? tol') = true ->
  exists ext,
    rows_of (regula_falsi f a b tol max_iter)
      = rows_of (regula_falsi f a b tol' max_iter) ++ ext.
Proof.
  intros Hle. unfold regula_falsi.
  destruct (f a) as [e|fa]; [exists []; reflexivity|].
  destruct (f b) as [e|fb]; [exists []; reflexivity|].
  destruct (same_sign fa fb); [exists []; reflexivity|].
  apply loop_tol_prefix. exact Hle.
Qed.

Lemma looser_tolerance_stops_earlier_witness :
  (1e-6 <=? 1e-3) = true /\
  List.length (rows_of (regula_falsi square_minus_two 0 2 1e-3 50)) = 6%nat /\
  exists ext,
    rows_of (regula_falsi square_minus_two 0 2 1e-6 50)
      = rows_of (regula_falsi square_minus_two 0 2 1e-3 50) ++ ext.
Proof.
  split; [reflexivity|]. split; [reflexivity|].
  apply (looser_tolerance_stops_earlier square_minus_two 0 2 1e-6 1e-3 50).
  reflexivity.
Defined.

(** ** The page *)

(** X5: when the page shows a summary, the frame behind it was returned by
    [regula_falsi], the residual shown is [f] at the root shown, the
    iteration count is the number of rows and lies between [1] and
    [max_iter], and a count below [max_iter] means the residual is within
    the tolerance. *)
Theorem summary_is_last_row (f : callable) (a b tol : float) (max_iter : Z)
        (root froot : float) (iters : Z) (df : DataFrame) :
  compute_action f a b tol max_iter = Ringkasan root froot iters df ->
  regula_falsi f a b tol max_iter = Returned df /\
  f root = inr froot /\
  iters = Z.of_nat (List.length df) /\
  (1 <= iters <= max_iter)%Z /\
  ((iters < max_iter)%Z -> within_tol froot tol = true).
Proof.
  unfold compute_action.
  destruct (regula_falsi f a b tol max_iter) as [df0|e rows] eqn:R;
    [|discriminate].
  destruct (last_row df0) as [r|] eqn:L; [|discriminate].
  intros [= <- <- <- <-].
  destruct (regula_falsi_entered f a b tol max_iter)
    as (fa & fb & Ha & Hb & Hs); [left; eauto|].
  destruct (regula_falsi_trace f a b tol max_iter fa fb Ha Hb Hs)
    as (T & Hlen & E).
  rewrite R in T, Hlen, E. cbn [rows_of] in T, Hlen.
  pose proof (nth_error_last_row df0 r L) as Hn.
  assert (NE : (0 < List.length df0)%nat).
  { destruct df0; [discriminate|cbn; lia]. }
  assert (I : r_iter r = Z.of_nat (List.length df0)).
  { rewrite (trace_iter f tol df0 _ _ T _ r Hn). lia. }
  split; [reflexivity|]. split; [|split; [exact I|split]].
  - apply (trace_step f tol df0 _ _ T _ r Hn).
  - lia.
  - intros Hlt. destruct E as [E|(r' & L' & P)]; [lia|]. congruence.
Qed.

Lemma summary_is_last_row_witness :
  let df := rows_of (regula_falsi square_minus_two 0 2 1e-6 50) in
  let r := nth 9 df (mkRow 0 0 0 0 0 0 0) in
  compute_action square_minus_two 0 2 1e-6 50
    = Ringkasan (r_c r) (r_fc r) 10 df /\
  square_minus_two (r_c r) = inr (r_fc r) /\
  within_tol (r_fc r) 1e-6 = true.
Proof.
  intros df r.
  assert (H : compute_action square_minus_two 0 2 1e-6 50
              = Ringkasan (r_c r) (r_fc r) 10 df)
    by (vm_compute; reflexivity).
  destruct (summary_is_last_row _ _ _ _ _ _ _ _ _ H)
    as (_ & Hf & _ & _ & Ht).
  split; [exact H|]. split; [exact Hf|]. apply Ht. lia.
Defined.

(** X6: line 84 fails on an empty frame, outside the [try], exactly when
    [max_iter] is not positive and the entry check passes; in that case
    [regula_falsi] returns the empty frame without evaluating [f] at any
    third point. *)
Theorem empty_frame_iff (f : callable) (a b tol : float) (max_iter : Z) :
  (compute_action f a b tol max_iter = IndexError_uncaught <->
   regula_falsi f a b tol max_iter = Returned []) /\
  (regula_falsi f a b tol max_iter = Returned [] <->
   (max_iter <= 0)%Z /\
   exists fa fb, f a = inr fa /\ f b = inr fb /\ same_sign fa fb = false).
Proof.
  split; split.
  - unfold compute_action.
    destruct (regula_falsi f a b tol max_iter) as [df|e rows];
      [|discriminate].
    destruct df as [|r0 l]; [reflexivity|].
    destruct (last_row (r0 :: l)) eqn:L; [discriminate|].
    exfalso. destruct (exists_last (l:=r0 :: l)) as (l' & x & E);
      [discriminate|].
    rewrite E, last_row_snoc in L. discriminate.
  - intros R. unfold compute_action. rewrite R. reflexivity.
  - intros R.
    destruct (regula_falsi_entered f a b tol max_iter)
      as (fa & fb & Ha & Hb & Hs); [left; eauto|].
    destruct (regula_falsi_trace f a b tol max_iter fa fb Ha Hb Hs)
      as (_ & _ & E).
    rewrite R in E. split; [|eauto].
    destruct E as [E|(r & L & _)]; [cbn in E; lia | discriminate].
  - intros (Hm & fa & fb & Ha & Hb & Hs).
    rewrite (regula_falsi_enters f a b tol max_iter fa fb Ha Hb Hs).
    replace (Z.to_nat max_iter) with 0%nat by lia. reflexivity.
Qed.

(** ** How a call can fail *)

(** X7: in a call with a tolerance [>= 0] of a function that answers NaN
    with NaN, whose entry values differ in sign with [f(a)] not zero, the
    division of line 51 never raises: its divisor is zero in no pass, so
    the call does not end in the [ZeroDivisionError] of that line.  An
    exception that [f] itself raises, a division by zero inside [f]
    included, is not excluded: it leaves the call as [EvalError].  If
    moreover [f] raises nowhere, the call returns a frame. *)
Theorem bracketed_call_never_divides_by_zero (f : callable) (a b tol : float)
        (max_iter : Z) (fa fb : float) :
  f a = inr fa -> f b = inr fb ->
  same_sign fa fb = false ->
  (fa =? 0) = false ->
  (0 <=? tol) = true ->
  nan_strict f ->
  (forall rows,
     regula_falsi f a b tol max_iter <> Raised ZeroDivisionError rows) /\
  ((forall x, exists y, f x = inr y) ->
   exists df, regula_falsi f a b tol max_iter = Returned df).
Proof.
  intros Ha Hb Hs Hnz Htol Hf.
  rewrite (regula_falsi_enters f a b tol max_iter fa fb Ha Hb Hs).
  assert (Z : forall rows,
            loop f tol (Z.to_nat max_iter) 1%Z (mkBracket a b fa fb) []
            <> Raised ZeroDivisionError rows).
  { intros rows.
    apply (loop_never_divides_by_zero f tol _ Htol Hf); assumption. }
  split; [exact Z|]. intros Hev.
  destruct (loop f tol (Z.to_nat max_iter) 1%Z (mkBracket a b fa fb) [])
    as [df|e rows] eqn:R; [eauto|].
  exfalso. destruct (loop_raises f tol _ _ _ _ _ _ R) as [->|[msg ->]].
  - exact (Z rows eq_refl).
  - destruct (loop_eval_error f tol _ _ _ _ _ _ R) as (x & Hx).
    destruct (Hev x) as (y & Hy). congruence.
Qed.

Lemma square_minus_two_total :
  forall x, exists y, square_minus_two x = inr y.
Proof. intros x. eexists. reflexivity. Qed.

Lemma bracketed_call_never_divides_by_zero_witness :
  (forall rows,
     regula_falsi square_minus_two 0 2 1e-6 50
       <> Raised ZeroDivisionError rows) /\
  exists df, regula_falsi square_minus_two 0 2 1e-6 50 = Returned df.
Proof.
  destruct (bracketed_call_never_divides_by_zero square_minus_two 0 2 1e-6 50
              (-2) 2 eq_refl eq_refl eq_refl eq_refl eq_refl
              square_minus_two_nan_strict) as [Z R].
  split; [exact Z | exact (R square_minus_two_total)].
Defined.

(** X8: a call raises in three ways only.  The [ValueError] of line 45
    comes with no row and equal signs at entry.  A [ZeroDivisionError] comes
    after at least one row: the entry check keeps the first denominator
    away from zero, and the zero denominator is the one of the variables
    the last row was updated to.  Anything else is an exception of [f]
    itself.  The rows appended before any of them all failed the test of
    line 55. *)
Theorem raised_only_three_ways (f : callable) (a b tol : float)
        (max_iter : Z) (e : exception) (rows : list row) :
  regula_falsi f a b tol max_iter = Raised e rows ->
  ((e = ValueError sign_message /\ rows = [] /\
    exists fa fb, f a = inr fa /\ f b = inr fb /\ same_sign fa fb = true) \/
   (e = ZeroDivisionError /\
    exists r,
      last_row rows = Some r /\
      (br_fb (update (bracket_of r) (r_c r) (r_fc r))
       - br_fa (update (bracket_of r) (r_c r) (r_fc r)) =? 0) = true) \/
   (exists x msg, e = EvalError msg /\ f x = inl msg)) /\
  Forall (fun r => within_tol (r_fc r) tol = false) rows.
Proof.
  unfold regula_falsi.
  destruct (f a) as [ea|fa] eqn:Ha.
  { intros [= <- <-]. split; [|constructor]. right. right. eauto. }
  destruct (f b) as [eb|fb] eqn:Hb.
  { intros [= <- <-]. split; [|constructor]. right. right. eauto. }
  destruct (same_sign fa fb) eqn:Hs.
  { intros [= <- <-]. split; [|constructor]. left. eauto 7. }
  intros R. split.
  - destruct (loop_raises f tol _ _ _ _ _ _ R) as [->|[msg ->]].
    + right. left. split; [reflexivity|].
      destruct (loop_zero_division f tol _ _ _ _ _ R) as [[_ Z]|H];
        [|exact H].
      cbn in Z. rewrite (TestFacts.same_sign_false_denominator fa fb Hs) in Z.
      discriminate.
    + right. right. destruct (loop_eval_error f tol _ _ _ _ _ _ R) as (x & Hx).
      eauto.
  - destruct (loop_raised_rows_fail f tol _ _ _ _ _ _ R) as (new & -> & A).
    exact A.
Qed.

Lemma raised_only_three_ways_witness :
  let r := mkRow 1 0.1 0.7 (0.1 * 3 / 3) 0 3 3 in
  regula_falsi plateau 0.1 0.7 1e-6 50 = Raised ZeroDivisionError [r] /\
  (exists r',
     last_row [r] = Some r' /\
     (br_fb (update (bracket_of r') (r_c r') (r_fc r'))
      - br_fa (update (bracket_of r') (r_c r') (r_fc r')) =? 0) = true) /\
  Forall (fun r' => within_tol (r_fc r') 1e-6 = false) [r].
Proof.
  intros r.
  assert (R : regula_falsi plateau 0.1 0.7 1e-6 50
              = Raised ZeroDivisionError [r])
    by (vm_compute; reflexivity).
  destruct (raised_only_three_ways _ _ _ _ _ _ _ R) as ([H|[H|H]] & A).
  - destruct H as (H & _). discriminate.
  - split; [exact R|]. split; [exact (proj2 H) | exact A].
  - destruct H as (x & msg & H & _). discriminate.
Defined.

(** Rows appended before a call raised all failed the test of line 55. *)
Lemma raised_rows_fail (f : callable) (a b tol : float) (max_iter : Z)
      (e : exception) (rows : list row) :
  regula_falsi f a b tol max_iter = Raised e rows ->
  Forall (fun r => within_tol (r_fc r) tol = false) rows.
Proof.
  unfold regula_falsi.
  destruct (f a) as [ea|fa]; [intros [= _ <-]; constructor|].
  destruct (f b) as [eb|fb]; [intros [= _ <-]; constructor|].
  destruct (same_sign fa fb); [intros [= _ <-]; constructor|].
  intros R.
  destruct (loop_raised_rows_fail f tol _ _ _ _ _ _ R) as (new & -> & A).
  exact A.
Qed.

(** ** The tolerance *)

(** X9: under a tolerance [>= 0] a row whose [f(c)] is exactly zero ends
    the call: it is the last row appended and the call returned (it did not
    raise after it). *)
Theorem exact_root_stops (f : callable) (a b tol : float) (max_iter : Z)
        (k : nat) (r : row) :
  (0 <=? tol) = true ->
  nth_error (rows_of (regula_falsi f a b tol max_iter)) k = Some r ->
  (r_fc r =? 0) = true ->
  S k = List.length (rows_of (regula_falsi f a b tol max_iter)) /\
  exists df, regula_falsi f a b tol max_iter = Returned df.
Proof.
  intros Htol Hk Hz.
  pose proof (FloatFacts.zero_within_tol _ _ Hz Htol) as P.
  assert (In r (rows_of (regula_falsi f a b tol max_iter)))
    as Hin by (apply (nth_error_In _ _ Hk)).
  destruct (regula_falsi_entered f a b tol max_iter)
    as (fa & fb & Ha & Hb & Hs).
  { right. intros E. rewrite E in Hin. exact Hin. }
  destruct (regula_falsi_trace f a b tol max_iter fa fb Ha Hb Hs) as (T & _).
  split.
  - assert (k < List.length (rows_of (regula_falsi f a b tol max_iter)))%nat
      by (apply nth_error_Some; congruence).
    destruct (Nat.lt_ge_cases (S k)
                (List.length (rows_of (regula_falsi f a b tol max_iter))))
      as [L|L]; [|lia].
    rewrite (trace_inner_fails f tol _ _ _ T k r Hk L) in P. discriminate.
  - destruct (regula_falsi f a b tol max_iter) as [df|e rows] eqn:R;
      [eauto|].
    exfalso. pose proof (raised_rows_fail f a b tol max_iter e rows R) as A.
    cbn [rows_of] in Hin. rewrite Forall_forall in A.
    rewrite (A r Hin) in P. discriminate.
Qed.

Lemma exact_root_stops_witness :
  let r := mkRow 1 0 0.4 (0.4 / 4) (-1) 3 0 in
  nth_error (rows_of (regula_falsi ten_x_minus_one 0 0.4 1e-6 50)) 0
    = Some r /\
  1%nat = List.length (rows_of (regula_falsi ten_x_minus_one 0 0.4 1e-6 50)) /\
  exists df, regula_falsi ten_x_minus_one 0 0.4 1e-6 50 = Returned df.
Proof.
  intros r.
  assert (H : nth_error (rows_of (regula_falsi ten_x_minus_one 0 0.4 1e-6 50))
                0 = Some r) by (vm_compute; reflexivity).
  split; [exact H|].
  exact (exact_root_stops ten_x_minus_one 0 0.4 1e-6 50 0 r
           eq_refl H eq_refl).
Defined.

(** X10: under a tolerance that is negative or NaN no row passes the test
    of line 55, so a call that returns has used all its passes: the frame
    has [max_iter] rows ([0] when [max_iter] is negative). *)
Theorem negative_tolerance_uses_all_passes (f : callable) (a b tol : float)
        (max_iter : Z) (df : DataFrame) :
  (0 <=? tol) = false ->
  regula_falsi f a b tol max_iter = Returned df ->
  List.length df = Z.to_nat max_iter /\
  Forall (fun r => within_tol (r_fc r) tol = false) df.
Proof.
  intros Htol R.
  assert (F : forall fc, within_tol fc tol = false).
  { intros fc. destruct (within_tol fc tol) eqn:W; [|reflexivity].
    rewrite (TestFacts.within_tol_nonneg fc tol W) in Htol. discriminate. }
  split; [|apply Forall_forall; intros r _; apply F].
  destruct (regula_falsi_entered f a b tol max_iter)
    as (fa & fb & Ha & Hb & Hs); [left; eauto|].
  destruct (regula_falsi_trace f a b tol max_iter fa fb Ha Hb Hs)
    as (_ & _ & E).
  rewrite R in E. destruct E as [E|(r & _ & P)]; [exact E|].
  rewrite F in P. discriminate.
Qed.

Lemma negative_tolerance_uses_all_passes_witness :
  (0 <=? -1) = false /\
  exists df,
    regula_falsi ten_x_minus_one 0 0.4 (-1) 3 = Returned df /\
    List.length df = 3%nat /\
    Forall (fun r => within_tol (r_fc r) (-1) = false) df.
Proof.
  split; [reflexivity|]. eexists.
  assert (R : regula_falsi ten_x_minus_one 0 0.4 (-1) 3
              = Returned (rows_of (regula_falsi ten_x_minus_one 0 0.4 (-1) 3)))
    by (vm_compute; reflexivity).
  split; [exact R|].
  exact (negative_tolerance_uses_all_passes ten_x_minus_one 0 0.4 (-1) 3 _
           eq_refl R).
Defined.

(** ** Degenerate inputs *)

(** X11: an interval with [a] and [b] the same number fails the entry check
    with the [ValueError] of line 45, whatever [f], unless [f] is a NaN
    there: it never gets as far as dividing by [fb - fa = 0]. *)
Theorem degenerate_interval_fails_entry (f : callable) (a tol : float)
        (max_iter : Z) (fa : float) :
  f a = inr fa -> is_nan fa = false ->
  regula_falsi f a a tol max_iter = Raised (ValueError sign_message) [].
Proof.
  intros Ha N. unfold regula_falsi.
  rewrite Ha, (TestFacts.same_sign_refl fa N). reflexivity.
Qed.

Lemma degenerate_interval_fails_entry_witness :
  regula_falsi square_minus_two 1 1 1e-6 50
  = Raised (ValueError sign_message) [].
Proof.
  exact (degenerate_interval_fails_entry square_minus_two 1 1e-6 50 (-1)
           eq_refl eq_refl).
Defined.

(** X12: a NaN value at an endpoint is not caught by the entry check.  When
    [f] answers NaN with NaN without raising, the call then runs all
    [max_iter] passes and returns a frame in which every [c] and every
    [f(c)] is a NaN. *)
Theorem nan_entry_runs_all_passes (f : callable) (a b tol : float)
        (max_iter : Z) (fa fb : float) :
  f a = inr fa -> f b = inr fb ->
  is_nan fa = true \/ is_nan fb = true ->
  nan_strict f ->
  (forall x, is_nan x = true -> exists y, f x = inr y) ->
  exists df,
    regula_falsi f a b tol max_iter = Returned df /\
    List.length df = Z.to_nat max_iter /\
    Forall (fun r => is_nan (r_c r) = true /\ is_nan (r_fc r) = true) df.
Proof.
  intros Ha Hb N Hf Hev.
  rewrite (regula_falsi_enters f a b tol max_iter fa fb Ha Hb
             (TestFacts.same_sign_nan fa fb N)).
  destruct (loop_on_nan f tol (Z.to_nat max_iter) Hf Hev 1%Z
              (mkBracket a b fa fb) [] N) as (new & E & L & A).
  exists new. auto.
Qed.

Lemma sqrt_minus_one_nan_strict : nan_strict sqrt_minus_one.
Proof.
  intros x y N [= <-]. apply FloatFacts.is_nan_spec.
  apply FloatFacts.is_nan_spec in N. rewrite sub_spec, sqrt_spec, N.
  reflexivity.
Qed.

Lemma nan_entry_runs_all_passes_witness :
  sqrt_minus_one (-1) = inr nan /\
  exists df,
    regula_falsi sqrt_minus_one (-1) 4 1e-6 50 = Returned df /\
    List.length df = 50%nat /\
    Forall (fun r => is_nan (r_c r) = true /\ is_nan (r_fc r) = true) df.
Proof.
  split; [reflexivity|].
  apply (nan_entry_runs_all_passes sqrt_minus_one (-1) 4 1e-6 50 nan 1).
  - reflexivity.
  - reflexivity.
  - left. reflexivity.
  - exact sqrt_minus_one_nan_strict.
  - intros x _. eexists. reflexivity.
Defined.

(** ** The plot window *)

Module WindowFacts.

Import FloatFacts.

Lemma binary_round_aux_opp (s : bool) (m : Z) (e : Z) (l : location) :
  binary_round_aux prec emax (negb s) m e l
  = SFopp (binary_round_aux prec emax s m e l).
Proof.
  unfold binary_round_aux.
  destruct (shr_fexp prec emax m e l) as [mrs e'].
  destruct (shr_fexp prec emax _ e' loc_Exact) as [mrs' e''].
  destruct (shr_m mrs'); try reflexivity.
  destruct (e'' <=? emax - prec)%Z; reflexivity.
Qed.

Lemma binary_round_opp (s : bool) (m : positive) (e : Z) :
  binary_round prec emax (negb s) m e = SFopp (binary_round prec emax s m e).
Proof.
  unfold binary_round. destruct (shl_align _ _ _) as [mz ez].
  apply binary_round_aux_opp.
Qed.

Lemma binary_normalize_opp (z : Z) (e : Z) :
  SFabs (binary_normalize prec emax (- z) e false)
  = SFabs (binary_normalize prec emax z e false).
Proof.
  destruct z as [|m|m]; cbn [Z.opp binary_normalize]; [reflexivity| |].
  all: pose proof (binary_round_opp false m e) as H; cbn [negb] in H;
    rewrite H; destruct (binary_round prec emax false m e); reflexivity.
Qed.

(** [|b - a|] and [|a - b|] are the same number. *)
Lemma SFabs_sub_swap (x y : spec_float) :
  SFabs (SF64sub y x) = SFabs (SF64sub x y).
Proof.
  destruct x as [sx|sx| |sx mx ex], y as [sy|sy| |sy my ey];
    try (try destruct sx; try destruct sy; reflexivity).
  unfold SF64sub, SFsub. cbv zeta. rewrite (Z.min_comm ey ex).
  rewrite <- binary_normalize_opp. f_equal. f_equal. lia.
Qed.

Lemma abs_sub_swap (a b : float) : abs (b - a) = abs (a - b).
Proof.
  apply Prim2SF_inj. rewrite !abs_spec, !sub_spec. apply SFabs_sub_swap.
Qed.

(** Two different numbers are ordered one way and not the other. *)
Lemma ltb_total (a b : float) :
  is_nan a = false -> is_nan b = false -> (a =? b) = false ->
  (a <? b) = negb (b <? a).
Proof.
  rewrite !not_nan_spec, FloatAxioms.eqb_spec, !ltb_spec.
  unfold SFeqb, SFltb. rewrite (SFcompare_antisym (Prim2SF a) (Prim2SF b)).
  intros Na Nb.
  destruct (SFcompare (Prim2SF a) (Prim2SF b)) as [[]|] eqn:C; cbn;
    try congruence.
  exfalso.
  destruct (Prim2SF a) as [s|s| |s m e], (Prim2SF b) as [s'|s'| |s' m' e'];
    try congruence; cbn in C; try destruct s; try destruct s'; discriminate.
Qed.

End WindowFacts.

(** X13: the plot window does not depend on the order in which two distinct
    endpoints are given: entering the interval backwards gives the same
    [x_min] and [x_max]. *)
Theorem plot_window_swap (a b : float) :
  is_nan a = false -> is_nan b = false -> (a =? b) = false ->
  plot_window b a = plot_window a b.
Proof.
  intros Na Nb Hne. unfold plot_window, py_min, py_max.
  rewrite (WindowFacts.abs_sub_swap b a).
  rewrite (WindowFacts.ltb_total a b Na Nb Hne).
  destruct (b <? a); reflexivity.
Qed.

Lemma plot_window_swap_witness :
  plot_window 2 1 = plot_window 1 2 /\ plot_window 1 2 = (0.5, 2.5).
Proof.
  split; [|reflexivity].
  apply (plot_window_swap 1 2); reflexivity.
Defined.
